(** * Route ordering of the travel planner

    A shallow embedding of [TravelPlanner._optimize_travel_path] and
    [TravelPlanner._get_travel_time_with_timeout]
    (services/travel_planner.py) and the properties of the greedy
    nearest-neighbour ordering built on the pairwise travel-time dictionary.

    Numbers are exact rationals ([Q]); Python's [==] and [<] on numbers are
    [Qeq_bool] and the strict order of [Q].  The dictionary [travel_times]
    is an insertion-ordered association list, the set [unvisited] is the
    list of its members in iteration order (ascending for [set(range(n))]
    and unchanged by removals).  A raised Python exception is a value of
    the [run] type.

    The development also embeds what [create_plan] does before it calls
    the optimizer: the area and district codes of utils/location_mapper.py
    ([get_area_code], [get_sigungu_code], [validate_location]) and the
    loop that completes the coordinates of the places found, with
    [KakaoMapClient.get_coordinates] of services/kakao_map.py.  A Python
    [str] is the string of the bytes of its UTF-8 encoding. *)

From Stdlib Require Import String Bool Arith Lia ZArith QArith List.
From Stdlib Require Import Permutation Sorted.
Import ListNotations.

Local Open Scope nat_scope.

(** ** Python values and places *)

Inductive pyval : Type :=
| PyNone
| PyInt (z : Z)
| PyFloat (q : Q)
| PyStr (s : string).

(** [bool(v)] *)
Definition truthy (v : pyval) : bool :=
  match v with
  | PyNone => false
  | PyInt z => negb (Z.eqb z 0)
  | PyFloat q => negb (Qeq_bool q 0)
  | PyStr s => negb (String.eqb s EmptyString)
  end.

(** A place is a dict; the optimizer reads the keys "name", "mapx" and
    "mapy" only.  [None] is an absent key. *)
Record place : Type := mkPlace {
  name : option pyval;
  mapx : option pyval;
  mapy : option pyval
}.

(** [d.get(key)] and [d.get(key, default)] for one field *)
Definition get (field : option pyval) : pyval :=
  match field with Some v => v | None => PyNone end.

Definition get_default (field : option pyval) (default : pyval) : pyval :=
  match field with Some v => v | None => default end.

(** [place.get("mapx") and place.get("mapy")] as a condition *)
Definition has_coords (p : place) : bool :=
  truthy (get (mapx p)) && truthy (get (mapy p)).

(** ** Exceptions *)

Inductive pyexn : Type :=
| IndexError
| KeyError
| ValueError.

Inductive run (A : Type) : Type :=
| Value (a : A)
| Raise (e : pyexn)
| OutOfFuel.

Arguments Value {A} a.
Arguments Raise {A} e.
Arguments OutOfFuel {A}.

Definition bind {A B : Type} (m : run A) (k : A -> run B) : run B :=
  match m with
  | Value a => k a
  | Raise e => Raise e
  | OutOfFuel => OutOfFuel
  end.

Notation "x <- m ;; k" := (bind m (fun x => k))
  (at level 61, m at next level, right associativity).
Notation "' pat <- m ;; k" := (bind m (fun x => match x with pat => k end))
  (at level 61, pat pattern, m at next level, right associativity).

(** [l[i]] *)
Definition index {A : Type} (l : list A) (i : nat) : run A :=
  match nth_error l i with
  | Some a => Value a
  | None => Raise IndexError
  end.

(** ** The travel-time dictionary *)

Abbreviation key := (nat * nat)%type (only parsing).

Definition key_eqb (a b : key) : bool :=
  (fst a =? fst b) && (snd a =? snd b).

Abbreviation dict := (list (key * Q)) (only parsing).

Definition keys (d : dict) : list key := map fst d.
Definition values (d : dict) : list Q := map snd d.

(** [k in d] *)
Fixpoint dict_mem (k : key) (d : dict) : bool :=
  match d with
  | [] => false
  | (k', _) :: d' => key_eqb k k' || dict_mem k d'
  end.

(** [d.get(k)] as an option *)
Fixpoint dict_get (k : key) (d : dict) : option Q :=
  match d with
  | [] => None
  | (k', v) :: d' => if key_eqb k k' then Some v else dict_get k d'
  end.

(** [d[k]] *)
Definition dict_item (k : key) (d : dict) : run Q :=
  match dict_get k d with
  | Some v => Value v
  | None => Raise KeyError
  end.

(** [d[k] = v]: an existing key keeps its position, a new key goes last *)
Fixpoint dict_set (k : key) (v : Q) (d : dict) : dict :=
  match d with
  | [] => [(k, v)]
  | (k', v') :: d' =>
      if key_eqb k k' then (k', v) :: d' else (k', v') :: dict_set k v d'
  end.

(** ** The travel-time provider and the time-limited lookup *)

(** What [asyncio.wait_for(self.kakao_api.get_travel_time(origin,
    destination), timeout=5)] can do: return a number, return [None], run
    into the time limit of 5 seconds ([asyncio.TimeoutError]), or raise
    another exception of the class [Exception].  The number is finite and
    taken as the rational it denotes.  An answer that is no number, and
    an exception outside [Exception] such as [asyncio.CancelledError],
    which line 218 does not catch, are not outcomes of this type. *)
Inductive provider_outcome : Type :=
| Duration (t : Q)
| NoData
| TimedOut
| Failed (e : string).

(** The [origin] and [destination] dicts handed to the provider *)
Record endpoint : Type := mkEndpoint {
  ep_name : pyval;
  ep_mapx : pyval;
  ep_mapy : pyval
}.

Definition endpoint_of (p : place) : endpoint :=
  {| ep_name := get_default (name p) (PyStr "Unknown");
     ep_mapx := get (mapx p);
     ep_mapy := get (mapy p) |}.

Definition sentinel : Q := 99999.

(** One element of the list returned by
    [asyncio.gather] called with [return_exceptions=True] *)
Inductive gathered : Type :=
| Returned (t : Q)
| Raised (e : string).

Definition _get_travel_time_with_timeout (o : provider_outcome) : gathered :=
  match o with
  | Duration t => Returned t
  | NoData => Returned sentinel
  | TimedOut => Returned sentinel
  | Failed _ => Returned sentinel
  end.

(** ** Keys of [min] *)

Inductive ext : Type :=
| Fin (q : Q)
| Inf.

(** [a < b] on floats with [float('inf')] *)
Definition ext_ltb (a b : ext) : bool :=
  match a, b with
  | Fin x, Fin y => negb (Qle_bool y x)
  | Fin _, Inf => true
  | Inf, _ => false
  end.

(** [min(iterable, key=key)]: the first element whose key is smallest *)
Fixpoint min_from (key_of : nat -> ext) (best : nat) (l : list nat) : nat :=
  match l with
  | [] => best
  | x :: l' =>
      if ext_ltb (key_of x) (key_of best)
      then min_from key_of x l'
      else min_from key_of best l'
  end.

Definition py_min (key_of : nat -> ext) (l : list nat) : run nat :=
  match l with
  | [] => Raise ValueError
  | x :: l' => Value (min_from key_of x l')
  end.

(** [s.remove(x)] on a set given by its members *)
Fixpoint set_remove (x : nat) (s : list nat) : run (list nat) :=
  match s with
  | [] => Raise KeyError
  | y :: s' =>
      if x =? y then Value s'
      else s'' <- set_remove x s' ;; Value (y :: s'')
  end.

(** [enumerate(l)] *)
Definition enumerate {A : Type} (l : list A) : list (nat * A) :=
  combine (seq 0 (length l)) l.

(** [sum(l)] *)
Definition sum (l : list Q) : Q := fold_left Qplus l 0%Q.

(** [for x in l: body], threading the loop's variables *)
Fixpoint for_each {A S : Type} (l : list A) (body : S -> A -> run S) (s : S)
  : run S :=
  match l with
  | [] => Value s
  | a :: l' => s' <- body s a ;; for_each l' body s'
  end.

(** ** The optimizer *)

(** A scheduled call of [_get_travel_time_with_timeout(place1, place2)],
    with the indices [i], [j] at which it was created *)
Record task : Type := mkTask {
  task_key : key;
  task_origin : place;
  task_destination : place
}.

Section Optimizer.

(** [KakaoMapClient.get_travel_time] is not among the sources of the
    repository; the provider is a parameter.  Its first argument is the
    position of the lookup among the lookups of one call, so that two
    lookups between the same places may end differently. *)
Variable get_travel_time : nat -> endpoint -> endpoint -> provider_outcome.

(** Lines 152-157: the loop that creates the tasks.  [travel_times] is
    the empty dict throughout this loop. *)
Definition schedule_tasks (valid_places : list place) : list task :=
  let travel_times : dict := [] in
  flat_map (fun '(i, place1) =>
    flat_map (fun '(j, place2) =>
      if negb (i =? j) && negb (dict_mem (j, i) travel_times)
      then [mkTask (i, j) place1 place2]
      else [])
      (enumerate valid_places))
    (enumerate valid_places).

(** Line 159: the results come back in the order of the tasks. *)
Fixpoint gather_from (k : nat) (tasks : list task) : list gathered :=
  match tasks with
  | [] => []
  | t :: tasks' =>
      _get_travel_time_with_timeout
        (get_travel_time k (endpoint_of (task_origin t))
                           (endpoint_of (task_destination t)))
      :: gather_from (S k) tasks'
  end.

Definition gather (tasks : list task) : list gathered := gather_from 0 tasks.

(** [valid_places[i]['name']], read by the log line 167 *)
Definition name_of (valid_places : list place) (i : nat) : run pyval :=
  p <- index valid_places i ;;
  match name p with
  | Some v => Value v
  | None => Raise KeyError
  end.

(** Lines 163-170: the body of the two loops that fill the dict *)
Definition fill_entry (valid_places : list place) (results : list gathered)
    (st : dict * nat) (i j : nat) : run (dict * nat) :=
  let '(travel_times, task_idx) := st in
  if negb (i =? j) && negb (dict_mem (j, i) travel_times) then
    result <- index results task_idx ;;
    match result with
    | Raised _ =>
        let travel_times := dict_set (i, j) sentinel travel_times in
        _ <- name_of valid_places i ;;
        _ <- name_of valid_places j ;;
        Value (travel_times, S task_idx)
    | Returned t =>
        Value (dict_set (i, j) t travel_times, S task_idx)
    end
  else Value (travel_times, task_idx).

(** Lines 160-170 *)
Definition fill_matrix (valid_places : list place) (results : list gathered)
  : run (dict * nat) :=
  let n := length valid_places in
  for_each (seq 0 n)
    (fun st i =>
       for_each (seq 0 n)
         (fun st j => fill_entry valid_places results st i j) st)
    ([], 0).

(** Lines 173-174.  [avg_travel_time] is the exact quotient; Python
    rounds the quotient to a float, and for integers too large for a float
    the division raises.  What is proved about the replaced entries is
    proved for every value of the quotient ([replace_sentinels]), or for
    answers within [travel_time_bound]. *)
Definition valid_times (travel_times : dict) : list Q :=
  filter (fun t => negb (Qeq_bool t sentinel)) (values travel_times).

Definition avg_travel_time (travel_times : dict) : Q :=
  match valid_times travel_times with
  | [] => sentinel
  | _ :: _ =>
      (sum (valid_times travel_times)
       / inject_Z (Z.of_nat (Nat.max 1 (length (valid_times travel_times)))))%Q
  end.

(** Lines 175-177 *)
Definition backfill (travel_times : dict) : run dict :=
  let avg := avg_travel_time travel_times in
  for_each (keys travel_times)
    (fun tt k =>
       v <- dict_item k tt ;;
       if Qeq_bool v sentinel then Value (dict_set k avg tt) else Value tt)
    travel_times.

(** The key of line 186:
    [travel_times.get((current, x), float('inf'))].  A stored time is a
    finite number here; a float that overflowed to infinity is not. *)
Definition travel_key (travel_times : dict) (current x : nat) : ext :=
  match dict_get (current, x) travel_times with
  | Some t => Fin t
  | None => Inf
  end.

(** Lines 185-189; every round removes one member of [unvisited], the
    fuel bounds the number of rounds. *)
Fixpoint greedy_loop (fuel : nat) (valid_places : list place)
    (travel_times : dict) (optimized_route : list place)
    (unvisited : list nat) (current : nat) : run (list place) :=
  match unvisited with
  | [] => Value optimized_route
  | _ :: _ =>
      match fuel with
      | 0 => OutOfFuel
      | S fuel' =>
          next_place <- py_min (travel_key travel_times current) unvisited ;;
          p <- index valid_places next_place ;;
          unvisited' <- set_remove next_place unvisited ;;
          greedy_loop fuel' valid_places travel_times
                      (optimized_route ++ [p]) unvisited' next_place
      end
  end.

(** Lines 179-192 *)
Definition greedy_route (valid_places : list place) (travel_times : dict)
  : run (list place) :=
  let unvisited := seq 0 (length valid_places) in
  let current := 0 in
  p <- index valid_places current ;;
  unvisited <- set_remove current unvisited ;;
  greedy_loop (length unvisited) valid_places travel_times [p] unvisited
              current.

(** Lines 152-177: the dict the greedy selection reads *)
Definition travel_matrix (valid_places : list place) : run dict :=
  let results := gather (schedule_tasks valid_places) in
  st <- fill_matrix valid_places results ;;
  backfill (fst st).

(** The list filtered at line 147 *)
Definition valid_places_of (places : list place) : list place :=
  filter has_coords places.

(** [_optimize_travel_path]: the lookups it issues and what it returns *)
Definition _optimize_travel_path (places : list place)
  : list task * run (list place) :=
  if length places <=? 1 then ([], Value places)
  else
    let valid_places := valid_places_of places in
    if length valid_places <? 2 then ([], Value valid_places)
    else
      (schedule_tasks valid_places,
       travel_times <- travel_matrix valid_places ;;
       greedy_route valid_places travel_times).

End Optimizer.

(** ** Index pairs *)

(** The pairs [(i, j)] in the order in which the two nested loops over
    [range(n)] meet them *)
Definition index_pairs (n : nat) : list key :=
  flat_map (fun i => map (pair i) (seq 0 n)) (seq 0 n).

Definition upper (k : key) : bool := fst k <? snd k.

Definition off_diagonal (k : key) : bool := negb (fst k =? snd k).

(** The pairs [(i, j)] with [i < j < n], row by row *)
Definition upper_pairs (n : nat) : list key := filter upper (index_pairs n).

(** Lexicographic order of the pairs *)
Definition lex_lt (a b : key) : Prop :=
  fst a < fst b \/ (fst a = fst b /\ snd a < snd b).

(** What a lookup contributes to the gathered list *)
Definition lookup_value (o : provider_outcome) : Q :=
  match o with
  | Duration t => t
  | NoData => sentinel
  | TimedOut => sentinel
  | Failed _ => sentinel
  end.

Fixpoint lookup_values
    (get_travel_time : nat -> endpoint -> endpoint -> provider_outcome)
    (k : nat) (tasks : list task) : list Q :=
  match tasks with
  | [] => []
  | t :: tasks' =>
      lookup_value (get_travel_time k (endpoint_of (task_origin t))
                                      (endpoint_of (task_destination t)))
      :: lookup_values get_travel_time (S k) tasks'
  end.

(** The lookup did not produce a travel time. *)
Definition failed (o : provider_outcome) : bool :=
  match o with
  | Duration _ => false
  | NoData => true
  | TimedOut => true
  | Failed _ => true
  end.

(** What lines 175-177 do to one entry *)
Definition replace_failed (avg : Q) (kv : key * Q) : key * Q :=
  (fst kv, if Qeq_bool (snd kv) sentinel then avg else snd kv).

(** The dict as the fill loop leaves it: the pairs [(i, j)], [i < j], in
    row order, each with the gathered result of the same rank *)
Definition recorded_matrix
    (get_travel_time : nat -> endpoint -> endpoint -> provider_outcome)
    (valid_places : list place) : dict :=
  combine (upper_pairs (length valid_places))
          (lookup_values get_travel_time 0 (schedule_tasks valid_places)).

(** ** The spec's reading of valid coordinates *)

Definition number_of (v : pyval) : option Q :=
  match v with
  | PyInt z => Some (inject_Z z)
  | PyFloat q => Some q
  | PyNone => None
  | PyStr _ => None
  end.

(** The words of the spec: a latitude in [-90, 90] and a longitude
    in [-180, 180]; [mapy] is the latitude, [mapx] the longitude. *)
Definition spec_valid_coordinates (p : place) : bool :=
  match number_of (get (mapy p)), number_of (get (mapx p)) with
  | Some lat, Some lng =>
      Qle_bool (-90) lat && Qle_bool lat 90
      && Qle_bool (-180) lng && Qle_bool lng 180
  | _, _ => false
  end.

(** ** Sample places and providers *)

Definition place_at (label : string) (lng lat : Q) : place :=
  {| name := Some (PyStr label);
     mapx := Some (PyFloat lng);
     mapy := Some (PyFloat lat) |}.

Definition place_A : place := place_at "A" 127 37.
Definition place_B : place := place_at "B" 128 37.
Definition place_C : place := place_at "C" 129 35.
Definition place_D : place := place_at "D" 126 33.

(** A place whose coordinates could not be found *)
Definition place_unlocated : place :=
  {| name := Some (PyStr "E"); mapx := None; mapy := None |}.

(** A place whose coordinates lie outside every range *)
Definition place_off_the_map : place := place_at "F" 999 999.

(** A provider with the same outcome for every lookup *)
Definition always (o : provider_outcome)
  : nat -> endpoint -> endpoint -> provider_outcome :=
  fun _ _ _ => o.


(** A provider that answers from a table of travel times between named
    places, and runs into the time limit for a pair that is not listed *)
Definition label_of (e : endpoint) : string :=
  match ep_name e with
  | PyStr label => label
  | _ => EmptyString
  end.

Fixpoint timetable_find (origin destination : string)
    (table : list (string * string * Q)) : provider_outcome :=
  match table with
  | [] => TimedOut
  | (o, d, t) :: table' =>
      if String.eqb origin o && String.eqb destination d
      then Duration t
      else timetable_find origin destination table'
  end.

Definition timetable (table : list (string * string * Q))
  : nat -> endpoint -> endpoint -> provider_outcome :=
  fun _ origin destination =>
    timetable_find (label_of origin) (label_of destination) table.

Definition both_ways (table : list (string * string * Q))
  : list (string * string * Q) :=
  table ++ map (fun e => (snd (fst e), fst (fst e), snd e)) table.

(** Six different answers for the six ordered pairs of three places *)
Definition directed_times : list (string * string * Q) :=
  [("A", "B", 11); ("A", "C", 12); ("B", "A", 13);
   ("B", "C", 14); ("C", "A", 15); ("C", "B", 16)]%Q%string.

(** No answer between B and C, seven minutes otherwise *)
Definition times_without_BC : list (string * string * Q) :=
  both_ways [("A", "B", 7); ("A", "C", 7)]%Q%string.

(** Symmetric travel times between four places *)
Definition four_places_times : list (string * string * Q) :=
  both_ways [("A", "B", 10); ("A", "C", 1); ("A", "D", 10);
             ("B", "C", 5); ("B", "D", 50); ("C", "D", 50)]%Q%string.

(** The body of the fill loop as a function of the pair [(i, j)] *)
Definition fill_body (valid_places : list place) (results : list gathered)
    (st : dict * nat) (ij : key) : run (dict * nat) :=
  fill_entry valid_places results st (fst ij) (snd ij).

(** ** Strings *)

(** A Python [str] is the string of the bytes of its UTF-8 encoding. *)
Definition byte_codes (s : string) : list nat :=
  map Ascii.nat_of_ascii (list_ascii_of_string s).

Definition of_byte_codes (l : list nat) : string :=
  string_of_list_ascii (map Ascii.ascii_of_nat l).

(** The characters for which [str.isspace] holds, by their encodings:
    U+0009..U+000D, U+001C..U+0020 in one byte; U+0085 and U+00A0 in two
    bytes; U+1680, U+2000..U+200A, U+2028, U+2029, U+202F, U+205F and
    U+3000 in three bytes. *)
Definition space1 (b : nat) : bool :=
  ((9 <=? b) && (b <=? 13)) || ((28 <=? b) && (b <=? 32)).

Definition space2 (b c : nat) : bool :=
  (b =? 194) && ((c =? 133) || (c =? 160)).

Definition space3 (b c d : nat) : bool :=
  ((b =? 225) && (c =? 154) && (d =? 128))
  || ((b =? 226) && (c =? 128)
      && (((128 <=? d) && (d <=? 138)) || (d =? 168) || (d =? 169)
          || (d =? 175)))
  || ((b =? 226) && (c =? 129) && (d =? 159))
  || ((b =? 227) && (c =? 128) && (d =? 128)).

(** [s.lstrip()] on the bytes *)
Fixpoint lstrip_codes (bs : list nat) : list nat :=
  match bs with
  | [] => []
  | b :: r =>
      if space1 b then lstrip_codes r
      else
        match r with
        | [] => bs
        | c :: r' =>
            if space2 b c then lstrip_codes r'
            else
              match r' with
              | [] => bs
              | d :: r'' => if space3 b c d then lstrip_codes r'' else bs
              end
        end
  end.

(** [s.rstrip()] on the bytes in reverse order *)
Fixpoint rstrip_reversed (bs : list nat) : list nat :=
  match bs with
  | [] => []
  | d :: r =>
      if space1 d then rstrip_reversed r
      else
        match r with
        | [] => bs
        | c :: r' =>
            if space2 c d then rstrip_reversed r'
            else
              match r' with
              | [] => bs
              | b :: r'' => if space3 b c d then rstrip_reversed r'' else bs
              end
        end
  end.

(** [s.strip()] *)
Definition py_strip (s : string) : string :=
  of_byte_codes (rev (rstrip_reversed (rev (lstrip_codes (byte_codes s))))).

(** ** Area and district codes (utils/location_mapper.py) *)

Definition AREA_CODE_MAP : list (string * Z) :=
  [("서울", 1); ("인천", 2); ("대전", 3); ("대구", 4); ("광주", 5); ("부산", 6);
   ("울산", 7); ("세종", 8); ("경기", 31); ("강원", 32); ("충북", 33); ("충남", 34);
   ("경북", 35); ("경남", 36); ("전북", 37); ("전남", 38); ("제주", 39)]%Z%string.

Definition SIGUNGU_CODE_MAP : list (Z * list (string * Z)) :=
  [(31,
    [("가평군", 1); ("고양시", 2); ("과천시", 3); ("광명시", 4); ("광주시", 5);
     ("구리시", 6); ("군포시", 7); ("김포시", 8); ("남양주시", 9); ("동두천시", 10);
     ("부천시", 11); ("성남시", 12); ("수원시", 13); ("시흥시", 14); ("안산시", 15);
     ("안성시", 16); ("안양시", 17); ("양주시", 18); ("양평군", 19); ("여주시", 20);
     ("연천군", 21); ("오산시", 22); ("용인시", 23); ("의왕시", 24); ("의정부시", 25);
     ("이천시", 26); ("파주시", 27); ("평택시", 28); ("포천시", 29); ("하남시", 30);
     ("화성시", 31)]);
   (32,
    [("강릉시", 1); ("고성군", 2); ("동해시", 3); ("삼척시", 4); ("속초시", 5);
     ("양구군", 6); ("양양군", 7); ("영월군", 8); ("원주시", 9); ("인제군", 10);
     ("정선군", 11); ("철원군", 12); ("춘천시", 13); ("태백시", 14); ("평창군", 15);
     ("홍천군", 16); ("화천군", 17); ("횡성군", 18)]);
   (33,
    [("괴산군", 1); ("단양군", 2); ("보은군", 3); ("영동군", 4); ("옥천군", 5);
     ("음성군", 6); ("제천시", 7); ("진천군", 8); ("청주시", 10); ("충주시", 11);
     ("증평군", 12)]);
   (34,
    [("공주시", 1); ("금산군", 2); ("논산시", 3); ("당진시", 4); ("보령시", 5);
     ("부여군", 6); ("서산시", 7); ("서천군", 8); ("아산시", 9); ("예산군", 11);
     ("천안시", 12); ("청양군", 13); ("태안군", 14); ("홍성군", 15)]);
   (35,
    [("경산시", 1); ("경주시", 2); ("고령군", 3); ("구미시", 4); ("군위군", 5);
     ("김천시", 6); ("문경시", 7); ("봉화군", 8); ("상주시", 9); ("성주군", 10);
     ("안동시", 11); ("영덕군", 12); ("영양군", 13); ("영주시", 14); ("영천시", 15);
     ("예천군", 16); ("울릉군", 17); ("울진군", 18); ("의성군", 19); ("청도군", 20);
     ("청송군", 21); ("칠곡군", 22); ("포항시", 23)]);
   (36,
    [("거제시", 1); ("거창군", 2); ("고성군", 3); ("김해시", 4); ("남해군", 5);
     ("밀양시", 7); ("사천시", 8); ("산청군", 9); ("양산시", 10); ("의령군", 12);
     ("진주시", 13); ("창녕군", 15); ("창원시", 16); ("통영시", 17); ("하동군", 18);
     ("함안군", 19); ("함양군", 20); ("합천군", 21)]);
   (37,
    [("고창군", 1); ("군산시", 2); ("김제시", 3); ("남원시", 4); ("무주군", 5);
     ("부안군", 6); ("순창군", 7); ("완주군", 8); ("익산시", 9); ("임실군", 10);
     ("장수군", 11); ("전주시", 12); ("정읍시", 13); ("진안군", 14)]);
   (38,
    [("강진군", 1); ("고흥군", 2); ("곡성군", 3); ("광양시", 4); ("구례군", 5);
     ("나주시", 6); ("담양군", 7); ("목포시", 8); ("무안군", 9); ("보성군", 10);
     ("순천시", 11); ("신안군", 12); ("여수시", 13); ("영광군", 16); ("영암군", 17);
     ("완도군", 18); ("장성군", 19); ("장흥군", 20); ("진도군", 21); ("함평군", 22);
     ("해남군", 23); ("화순군", 24)])]%Z%string.

(** [d.get(k)] for a dict with string keys and for one with integer keys *)
Fixpoint str_lookup {V : Type} (k : string) (d : list (string * V))
  : option V :=
  match d with
  | [] => None
  | (k', v) :: d' => if String.eqb k k' then Some v else str_lookup k d'
  end.

Fixpoint code_lookup {V : Type} (k : Z) (d : list (Z * V)) : option V :=
  match d with
  | [] => None
  | (k', v) :: d' => if Z.eqb k k' then Some v else code_lookup k d'
  end.

(** [area_code in {1, 2, 3, 4, 5, 6, 7, 8, 39}] *)
Definition without_districts (area_code : Z) : bool :=
  existsb (Z.eqb area_code) [1; 2; 3; 4; 5; 6; 7; 8; 39]%Z.

(** [get_area_code(region)]; the region is a [str] or an [int], any other
    value gives [None]. *)
Definition get_area_code (region : pyval) : option Z :=
  match region with
  | PyInt z =>
      if existsb (Z.eqb z) (map snd AREA_CODE_MAP) then Some z else None
  | PyStr s => str_lookup (py_strip s) AREA_CODE_MAP
  | PyNone => None
  | PyFloat _ => None
  end.

(** [get_sigungu_code(region, district_name)] *)
Definition get_sigungu_code (region district_name : pyval) : option Z :=
  if negb (truthy district_name) then None
  else
    match get_area_code region with
    | None => None
    | Some area_code =>
        if Z.eqb area_code 0 then None
        else if without_districts area_code then None
        else
          match code_lookup area_code SIGUNGU_CODE_MAP with
          | None => None
          | Some districts =>
              match district_name with
              | PyInt _ => None
              | PyStr s => str_lookup (py_strip s) districts
              | PyNone => None
              | PyFloat _ => None
              end
          end
    end.

(** [bool(x)] for an optional code *)
Definition code_truthy (code : option Z) : bool :=
  match code with
  | None => false
  | Some z => negb (Z.eqb z 0)
  end.

(** [validate_location(region, district_name)] *)
Definition validate_location (region district_name : pyval) : bool :=
  match get_area_code region with
  | None => false
  | Some area_code =>
      if Z.eqb area_code 0 then false
      else if truthy district_name then
        if without_districts area_code then false
        else code_truthy (get_sigungu_code region district_name)
      else true
  end.

(** Lines 49-62 of [create_plan]: the codes the plan is made with, or
    [None] when the plan ends with the error for an unknown region.
    [district] is [request.get("district", None)]. *)
Definition create_plan_codes (region district : pyval)
  : option (Z * option Z) :=
  match get_area_code region with
  | None => None
  | Some area_code =>
      if truthy district
         && match code_lookup area_code SIGUNGU_CODE_MAP with
            | Some _ => true
            | None => false
            end
      then Some (area_code, get_sigungu_code region district)
      else Some (area_code, None)
  end.

(** ** Coordinates for the places of a plan
       (services/kakao_map.py, lines 100-117 of [create_plan]) *)

(** The dict with the keys "mapx" and "mapy" that a coordinate lookup
    returns *)
Record coords : Type := mkCoords {
  coord_x : pyval;
  coord_y : pyval
}.

Definition no_coords : coords := mkCoords PyNone PyNone.

(** A call that returns or lets an exception escape *)
Inductive attempt (A : Type) : Type :=
| Got (a : A)
| Escapes (exception : string).

Arguments Got {A} a.
Arguments Escapes {A} exception.

Inductive geocoder : Type :=
| Kakao
| Google
| Naver.

(** The three lookups over the network that [KakaoMapClient.get_coordinates]
    chains: [_get_kakao_coordinates(query)],
    [google_places.get_coordinates(query, region)] and
    [naver_search.get_coordinates(query, region)].  What they answer is a
    parameter; the first argument is the index of the place the lookup is
    made for, so that two lookups of one name may end differently. *)
Record geocoders : Type := mkGeocoders {
  kakao_coordinates : nat -> string -> attempt coords;
  google_coordinates : nat -> string -> pyval -> attempt coords;
  naver_coordinates : nat -> string -> pyval -> attempt coords
}.

(** [coords["mapx"] and coords["mapy"]] as a condition *)
Definition both_truthy (c : coords) : bool :=
  truthy (coord_x c) && truthy (coord_y c).

(** [v is None] *)
Definition is_none (v : pyval) : bool :=
  match v with
  | PyNone => true
  | PyInt _ => false
  | PyFloat _ => false
  | PyStr _ => false
  end.

(** [s.isspace()]: at least one character and white space only *)
Definition isspace (s : string) : bool :=
  match byte_codes s with
  | [] => false
  | b :: bs =>
      match lstrip_codes (b :: bs) with
      | [] => true
      | _ :: _ => false
      end
  end.

(** [KakaoMapClient.get_coordinates(query, region)] for the place of
    index [i]: the geocoders it asks, in order, and what it returns. *)
Definition get_coordinates (g : geocoders) (i : nat) (query region : pyval)
  : list (nat * geocoder) * attempt coords :=
  if negb (truthy query) then ([], Got no_coords)
  else
    match query with
    | PyStr s =>
        if isspace s then ([], Got no_coords)
        else
          match kakao_coordinates g i s with
          | Escapes e => ([(i, Kakao)], Escapes e)
          | Got kakao_coords =>
              if both_truthy kakao_coords
              then ([(i, Kakao)], Got kakao_coords)
              else
                match google_coordinates g i s region with
                | Escapes e => ([(i, Kakao); (i, Google)], Escapes e)
                | Got google_coords =>
                    if both_truthy google_coords
                    then ([(i, Kakao); (i, Google)], Got google_coords)
                    else
                      ([(i, Kakao); (i, Google); (i, Naver)],
                       naver_coordinates g i s region)
                end
          end
    | PyNone => ([], Escapes "AttributeError")
    | PyInt _ => ([], Escapes "AttributeError")
    | PyFloat _ => ([], Escapes "AttributeError")
    end.

(** A place as the searches return it: the keys the optimizer reads and
    the key "title" *)
Record found_place : Type := mkFound {
  found : place;
  title : option pyval
}.

(** Lines 110-111: a place without the key "name" is named by its
    title. *)
Definition with_name (x : found_place) : found_place :=
  match name (found x) with
  | Some _ => x
  | None =>
      {| found := {| name := Some (get_default (title x)
                                     (PyStr "Unnamed Place"));
                     mapx := mapx (found x);
                     mapy := mapy (found x) |};
         title := title x |}
  end.

(** Lines 108-109 *)
Definition with_coords (c : coords) (x : found_place) : found_place :=
  {| found := {| name := name (found x);
                 mapx := Some (coord_x c);
                 mapy := Some (coord_y c) |};
     title := title x |}.

(** Lines 103-112, the body of the loop for the place of index [i]:
    the geocoders asked, and the place appended to [normalized_places],
    if any. *)
Definition normalize_place (g : geocoders) (region : pyval) (i : nat)
    (x : found_place) : list (nat * geocoder) * attempt (option found_place) :=
  if negb (has_coords (found x)) then
    match get_coordinates g i
            (get_default (name (found x)) (PyStr "Unknown")) region with
    | (calls, Escapes e) => (calls, Escapes e)
    | (calls, Got c) =>
        if is_none (coord_x c) || is_none (coord_y c)
        then (calls, Got None)
        else (calls, Got (Some (with_name (with_coords c x))))
    end
  else ([], Got (Some (with_name x))).

(** Lines 101-112 *)
Fixpoint normalize_from (g : geocoders) (region : pyval) (i : nat)
    (all_places : list found_place)
  : list (nat * geocoder) * attempt (list found_place) :=
  match all_places with
  | [] => ([], Got [])
  | x :: rest =>
      match normalize_place g region i x with
      | (calls, Escapes e) => (calls, Escapes e)
      | (calls, Got kept) =>
          let '(calls', r) := normalize_from g region (S i) rest in
          (calls ++ calls',
           match r with
           | Escapes e => Escapes e
           | Got normalized_places =>
               Got (match kept with
                    | Some y => y :: normalized_places
                    | None => normalized_places
                    end)
           end)
      end
  end.

Definition normalize_places (g : geocoders) (region : pyval)
    (all_places : list found_place)
  : list (nat * geocoder) * attempt (list found_place) :=
  normalize_from g region 0 all_places.

(** Lines 100-117: [None] is the error answer for no place to travel to,
    otherwise the lookups and the route of the optimizer. *)
Definition plan_route (g : geocoders)
    (get_travel_time : nat -> endpoint -> endpoint -> provider_outcome)
    (region : pyval) (all_places : list found_place)
  : attempt (option (list task * run (list place))) :=
  match snd (normalize_places g region all_places) with
  | Escapes e => Escapes e
  | Got [] => Got None
  | Got (y :: normalized_places) =>
      Got (Some (_optimize_travel_path get_travel_time
                   (map found (y :: normalized_places))))
  end.

(** Geocoders for examples: none of them finds anything; Kakao finds
    nothing and Google finds one point. *)
Definition nothing_found : geocoders :=
  {| kakao_coordinates := fun _ _ => Got no_coords;
     google_coordinates := fun _ _ _ => Got no_coords;
     naver_coordinates := fun _ _ _ => Got no_coords |}.

Definition google_finds (c : coords) : geocoders :=
  {| kakao_coordinates := fun _ _ => Got no_coords;
     google_coordinates := fun _ _ _ => Got c;
     naver_coordinates := fun _ _ _ => Got no_coords |}.

(** A place on the prime meridian: the longitude 0 is a valid one. *)
Definition place_G : place := place_at "G" 0 51.

(** The places A(0,0), B(0,1), C(0,10) of the example of the spec, read
    as latitude 0 and longitudes 0, 1 and 10 *)
Definition place_0_0 : place := place_at "A" 0 0.
Definition place_0_1 : place := place_at "B" 1 0.
Definition place_0_10 : place := place_at "C" 10 0.


(** Travel times of a magnitude at which the sum and the quotient of
    line 174 stay finite floats and raise nothing *)
Definition travel_time_bound : Q := 1000000000000000.

Definition bounded_answers
    (get_travel_time : nat -> endpoint -> endpoint -> provider_outcome)
  : Prop :=
  forall k origin destination t,
    get_travel_time k origin destination = Duration t ->
    (- travel_time_bound <= t)%Q /\ (t <= travel_time_bound)%Q.

(** ** Facts about the dictionary *)

Lemma key_eqb_eq (a b : key) : key_eqb a b = true <-> a = b.
Proof.
  destruct a as [a1 a2], b as [b1 b2]; unfold key_eqb; simpl.
  rewrite andb_true_iff, !Nat.eqb_eq.
  split; [intros [-> ->]; reflexivity | intros [= -> ->]; auto].
Qed.

Lemma key_eqb_refl (a : key) : key_eqb a a = true.
Proof. apply key_eqb_eq; reflexivity. Qed.

Lemma key_eqb_neq (a b : key) : key_eqb a b = false <-> a <> b.
Proof.
  rewrite <- key_eqb_eq. destruct (key_eqb a b); split; congruence.
Qed.

Lemma dict_mem_In (k : key) (d : dict) :
  dict_mem k d = true <-> In k (keys d).
Proof.
  induction d as [|[k' v] d IH]; simpl.
  - split; [discriminate | tauto].
  - rewrite orb_true_iff, IH, key_eqb_eq. intuition auto.
Qed.

Lemma dict_mem_false (k : key) (d : dict) :
  dict_mem k d = false <-> ~ In k (keys d).
Proof.
  rewrite <- dict_mem_In. destruct (dict_mem k d); split; congruence.
Qed.

Lemma dict_set_fresh (k : key) (v : Q) (d : dict) :
  ~ In k (keys d) -> dict_set k v d = d ++ [(k, v)].
Proof.
  induction d as [|[k' v'] d IH]; simpl; intros Hk; [reflexivity|].
  destruct (key_eqb k k') eqn:E.
  - apply key_eqb_eq in E. subst. tauto.
  - rewrite IH by tauto. reflexivity.
Qed.

Lemma dict_get_middle (k : key) (v : Q) (pre rest : dict) :
  ~ In k (keys pre) -> dict_get k (pre ++ (k, v) :: rest) = Some v.
Proof.
  induction pre as [|[k' v'] pre IH]; simpl; intros Hk.
  - rewrite key_eqb_refl. reflexivity.
  - destruct (key_eqb k k') eqn:E.
    + apply key_eqb_eq in E. subst. tauto.
    + apply IH. tauto.
Qed.

Lemma dict_set_middle (k : key) (v w : Q) (pre rest : dict) :
  ~ In k (keys pre) ->
  dict_set k w (pre ++ (k, v) :: rest) = pre ++ (k, w) :: rest.
Proof.
  induction pre as [|[k' v'] pre IH]; simpl; intros Hk.
  - rewrite key_eqb_refl. reflexivity.
  - destruct (key_eqb k k') eqn:E.
    + apply key_eqb_eq in E. subst. tauto.
    + rewrite IH by tauto. reflexivity.
Qed.

Lemma dict_get_In (k : key) (v : Q) (d : dict) :
  dict_get k d = Some v -> In (k, v) d.
Proof.
  induction d as [|[k' v'] d IH]; simpl; [discriminate|].
  destruct (key_eqb k k') eqn:E.
  - apply key_eqb_eq in E. intros [= ->]. subst. auto.
  - auto.
Qed.

Lemma dict_get_None (k : key) (d : dict) :
  dict_get k d = None <-> ~ In k (keys d).
Proof.
  induction d as [|[k' v'] d IH]; simpl.
  - tauto.
  - destruct (key_eqb k k') eqn:E.
    + apply key_eqb_eq in E. subst. split; [discriminate | tauto].
    + apply key_eqb_neq in E. rewrite IH. intuition congruence.
Qed.

Lemma dict_get_Some_key (k : key) (d : dict) :
  In k (keys d) -> exists v, dict_get k d = Some v.
Proof.
  intros Hk. destruct (dict_get k d) as [v|] eqn:E; [eauto|].
  apply dict_get_None in E. tauto.
Qed.

(** ** Facts about the loops *)

Lemma for_each_app {A S : Type} (l1 l2 : list A) (body : S -> A -> run S)
    (s : S) :
  for_each (l1 ++ l2) body s = s' <- for_each l1 body s ;; for_each l2 body s'.
Proof.
  revert s. induction l1 as [|a l1 IH]; intros s; simpl; [reflexivity|].
  destruct (body s a); simpl; auto.
Qed.

Lemma for_each_map {A B S : Type} (g : A -> B) (l : list A)
    (body : S -> B -> run S) (s : S) :
  for_each (map g l) body s = for_each l (fun st a => body st (g a)) s.
Proof.
  revert s. induction l as [|a l IH]; intros s; simpl; [reflexivity|].
  destruct (body s (g a)); simpl; auto.
Qed.

(** Two nested loops are one loop over the pairs. *)
Lemma for_each_nested {S : Type} (l1 l2 : list nat)
    (body : S -> nat -> nat -> run S) (s : S) :
  for_each l1 (fun st i => for_each l2 (fun st' j => body st' i j) st) s
  = for_each (flat_map (fun i => map (pair i) l2) l1)
             (fun st ij => body st (fst ij) (snd ij)) s.
Proof.
  revert s. induction l1 as [|i l1 IH]; intros s; simpl; [reflexivity|].
  rewrite for_each_app, for_each_map. simpl.
  destruct (for_each l2 _ s); simpl; auto.
Qed.

(** ** The order of the index pairs *)

Lemma in_index_pairs (n : nat) (k : key) :
  In k (index_pairs n) <-> fst k < n /\ snd k < n.
Proof.
  unfold index_pairs. rewrite in_flat_map. split.
  - intros [i [Hi Hk]]. apply in_map_iff in Hk as [j [<- Hj]].
    apply in_seq in Hi, Hj. simpl. lia.
  - intros [H1 H2]. exists (fst k). split; [apply in_seq; lia|].
    apply in_map_iff. exists (snd k). split; [destruct k; reflexivity|].
    apply in_seq; lia.
Qed.

Lemma in_upper_pairs (n : nat) (i j : nat) :
  In (i, j) (upper_pairs n) <-> i < j /\ j < n.
Proof.
  unfold upper_pairs, upper. rewrite filter_In, in_index_pairs, Nat.ltb_lt.
  simpl. lia.
Qed.

Lemma lex_lt_irrefl (a : key) : ~ lex_lt a a.
Proof. unfold lex_lt. lia. Qed.

Lemma lex_lt_asym (a b : key) : lex_lt a b -> ~ lex_lt b a.
Proof. unfold lex_lt. lia. Qed.

Lemma sorted_app (l1 l2 : list key) :
  StronglySorted lex_lt l1 -> StronglySorted lex_lt l2 ->
  (forall a b, In a l1 -> In b l2 -> lex_lt a b) ->
  StronglySorted lex_lt (l1 ++ l2).
Proof.
  induction 1 as [|a l1 Hs IH Ha]; intros H2 Hcross; simpl; [assumption|].
  constructor.
  - apply IH; [assumption|]. intros; apply Hcross; simpl; auto.
  - apply Forall_app. split; [assumption|].
    apply Forall_forall. intros b Hb. apply Hcross; simpl; auto.
Qed.

Lemma sorted_row (i a m : nat) :
  StronglySorted lex_lt (map (pair i) (seq a m)).
Proof.
  revert a. induction m as [|m IH]; intros a; simpl; constructor.
  - apply IH.
  - apply Forall_forall. intros k Hk.
    apply in_map_iff in Hk as [j [<- Hj]]. apply in_seq in Hj.
    right. simpl. lia.
Qed.

Lemma sorted_rows (n a m : nat) :
  StronglySorted lex_lt (flat_map (fun i => map (pair i) (seq 0 n)) (seq a m)).
Proof.
  revert a. induction m as [|m IH]; intros a; simpl; [constructor|].
  apply sorted_app; [apply sorted_row | apply IH |].
  intros x y Hx Hy.
  apply in_map_iff in Hx as [j [<- _]].
  apply in_flat_map in Hy as [i [Hi Hy]].
  apply in_map_iff in Hy as [j' [<- _]].
  apply in_seq in Hi. left. simpl. lia.
Qed.

Lemma sorted_index_pairs (n : nat) : StronglySorted lex_lt (index_pairs n).
Proof. apply sorted_rows. Qed.

Lemma sorted_NoDup (l : list key) : StronglySorted lex_lt l -> NoDup l.
Proof.
  induction 1 as [|a l Hs IH Ha]; constructor; [|assumption].
  intros Hin. rewrite Forall_forall in Ha.
  exact (lex_lt_irrefl _ (Ha a Hin)).
Qed.

(** In a sorted list, what is smaller than an element stands before it. *)
Lemma sorted_before (l1 l2 : list key) (x y : key) :
  StronglySorted lex_lt (l1 ++ x :: l2) ->
  In y (l1 ++ x :: l2) -> lex_lt y x -> In y l1.
Proof.
  induction l1 as [|a l1 IH]; simpl; intros Hs Hin Hlt.
  - inversion Hs as [|? ? _ Hall]; subst.
    destruct Hin as [<-|Hin]; [destruct (lex_lt_irrefl _ Hlt)|].
    rewrite Forall_forall in Hall.
    destruct (lex_lt_asym _ _ (Hall y Hin) Hlt).
  - inversion Hs as [|? ? Hs' _]; subst.
    destruct Hin as [->|Hin]; auto.
Qed.

(** When the loops reach [(i, j)] with [j < i], they have passed [(j, i)]. *)
Lemma transpose_before (n : nat) (l1 l2 : list key) (i j : nat) :
  index_pairs n = l1 ++ (i, j) :: l2 -> j < i -> In (j, i) l1.
Proof.
  intros Hsplit Hji.
  pose proof (sorted_index_pairs n) as Hs.
  assert (Hij : In (i, j) (index_pairs n))
    by (rewrite Hsplit; apply in_elt).
  assert (Hin : In (j, i) (index_pairs n)).
  { apply in_index_pairs in Hij. apply in_index_pairs. simpl in *. lia. }
  rewrite Hsplit in Hs, Hin.
  apply (sorted_before _ _ _ _ Hs Hin).
  left. simpl. exact Hji.
Qed.

Lemma skipn_nth_error {A : Type} (l : list A) (n : nat) (a : A) :
  nth_error l n = Some a -> skipn n l = a :: skipn (S n) l.
Proof.
  revert n. induction l as [|b l IH]; intros [|n]; simpl; try discriminate.
  - intros [= ->]. reflexivity.
  - intros H. rewrite (IH _ H). reflexivity.
Qed.

(** ** The dictionary after the fill loop *)

Section Fill.

Variable valid_places : list place.
Variable ts : list Q.

Lemma fill_flat (l : list key) :
  forall (travel_times : dict) (task_idx : nat),
    Forall (fun k => fst k < snd k) (keys travel_times) ->
    NoDup (keys travel_times ++ l) ->
    (forall l1 i j l2, l = l1 ++ (i, j) :: l2 -> j < i ->
                       In (j, i) (keys travel_times) \/ In (j, i) l1) ->
    task_idx + length (filter upper l) <= length ts ->
    for_each l (fill_body valid_places (map Returned ts))
             (travel_times, task_idx)
    = Value (travel_times ++ combine (filter upper l) (skipn task_idx ts),
             task_idx + length (filter upper l)).
Proof.
  induction l as [|[i j] l IH]; intros tt idx Hup Hnd Hpre Hlen.
  - simpl. rewrite app_nil_r, Nat.add_0_r. reflexivity.
  - assert (Hfresh : ~ In (i, j) (keys tt)).
    { intros Hin. apply NoDup_remove_2 in Hnd. apply Hnd.
      apply in_or_app. auto. }
    assert (Hcond : negb (i =? j) && negb (dict_mem (j, i) tt) = (i <? j)).
    { destruct (Nat.lt_trichotomy i j) as [Hlt|[Heq|Hgt]].
      - assert (E : dict_mem (j, i) tt = false).
        { apply dict_mem_false. intros Hin. rewrite Forall_forall in Hup.
          specialize (Hup _ Hin). simpl in Hup. lia. }
        rewrite E. apply Nat.ltb_lt in Hlt as Hlt'. rewrite Hlt'.
        assert (Hne' : (i =? j) = false) by (apply Nat.eqb_neq; lia).
        rewrite Hne'. reflexivity.
      - subst. rewrite Nat.eqb_refl, Nat.ltb_irrefl. reflexivity.
      - destruct (Hpre [] i j l eq_refl Hgt) as [Hin|[]].
        apply dict_mem_In in Hin. rewrite Hin, andb_false_r.
        symmetry. apply Nat.ltb_ge. lia. }
    simpl for_each. unfold fill_body at 1. unfold fill_entry.
    simpl fst. simpl snd.
    rewrite Hcond.
    assert (Hf : filter upper ((i, j) :: l)
                 = if i <? j then (i, j) :: filter upper l
                   else filter upper l) by reflexivity.
    rewrite Hf in Hlen |- *. clear Hf.
    destruct (i <? j) eqn:Hij.
    + simpl length in *.
      destruct (nth_error ts idx) as [t|] eqn:Ht;
        [|apply nth_error_None in Ht; lia].
      unfold index. rewrite (map_nth_error Returned _ _ Ht). simpl bind.
      rewrite (dict_set_fresh _ t _ Hfresh).
      rewrite IH.
      * rewrite (skipn_nth_error _ _ _ Ht). simpl combine.
        rewrite <- app_assoc. simpl. f_equal. f_equal. lia.
      * unfold keys. rewrite map_app. apply Forall_app. split; [exact Hup|].
        constructor; [|constructor]. simpl. apply Nat.ltb_lt. exact Hij.
      * unfold keys. rewrite map_app. simpl. rewrite <- app_assoc. exact Hnd.
      * intros l1 a b l2 -> Hba.
        destruct (Hpre ((i, j) :: l1) a b l2 eq_refl Hba) as [Hin|[Heq|Hin]].
        -- left. unfold keys. rewrite map_app. apply in_or_app. auto.
        -- left. unfold keys. rewrite map_app. apply in_or_app. right.
           simpl. auto.
        -- auto.
      * lia.
    + simpl bind. rewrite IH.
      * reflexivity.
      * exact Hup.
      * apply NoDup_remove_1 in Hnd. exact Hnd.
      * intros l1 a b l2 -> Hba.
        destruct (Hpre ((i, j) :: l1) a b l2 eq_refl Hba) as [Hin|[Heq|Hin]];
          auto.
        injection Heq as -> ->. apply Nat.ltb_ge in Hij. lia.
      * exact Hlen.
Qed.

(** The fill loop stores, for the [k]-th pair [(i, j)] with [i < j] in
    row order, the [k]-th gathered result. *)
Lemma fill_matrix_closed :
  length (upper_pairs (length valid_places)) <= length ts ->
  fill_matrix valid_places (map Returned ts)
  = Value (combine (upper_pairs (length valid_places)) ts,
           length (upper_pairs (length valid_places))).
Proof.
  intros Hlen. unfold fill_matrix.
  rewrite for_each_nested.
  change (flat_map _ _) with (index_pairs (length valid_places)).
  change (for_each (index_pairs (length valid_places))
                   (fill_body valid_places (map Returned ts)) ([], 0)
          = Value (combine (upper_pairs (length valid_places)) ts,
                   length (upper_pairs (length valid_places)))).
  rewrite fill_flat.
  - reflexivity.
  - constructor.
  - simpl. apply sorted_NoDup, sorted_index_pairs.
  - intros l1 i j l2 Hsplit Hji. right.
    exact (transpose_before _ _ _ _ _ Hsplit Hji).
  - exact Hlen.
Qed.

End Fill.

(** ** Counting the pairs *)

Lemma map_flat_map {A B C : Type} (h : B -> C) (f : A -> list B) (l : list A) :
  map h (flat_map f l) = flat_map (fun x => map h (f x)) l.
Proof.
  induction l as [|a l IH]; simpl; [reflexivity|].
  rewrite map_app, IH. reflexivity.
Qed.

Lemma filter_flat_map {A B : Type} (p : B -> bool) (f : A -> list B)
    (l : list A) :
  filter p (flat_map f l) = flat_map (fun x => filter p (f x)) l.
Proof.
  induction l as [|a l IH]; simpl; [reflexivity|].
  rewrite filter_app, IH. reflexivity.
Qed.

Lemma filter_map_cases {A B : Type} (p : B -> bool) (g : A -> B) (l : list A) :
  filter p (map g l) = flat_map (fun x => if p (g x) then [g x] else []) l.
Proof.
  induction l as [|a l IH]; simpl; [reflexivity|].
  rewrite IH. destruct (p (g a)); reflexivity.
Qed.

Lemma length_filter_map {A B : Type} (p : B -> bool) (g : A -> B)
    (l : list A) :
  length (filter p (map g l)) = length (filter (fun x => p (g x)) l).
Proof.
  induction l as [|a l IH]; simpl; [reflexivity|].
  destruct (p (g a)); simpl; rewrite IH; reflexivity.
Qed.

(** Looping over [enumerate(l)] and using the index only *)
Lemma flat_map_enumerate {A B : Type} (g : nat -> A -> list B)
    (h : nat -> list B) (l : list A) (a : nat) :
  (forall i x, g i x = h i) ->
  flat_map (fun ix => g (fst ix) (snd ix)) (combine (seq a (length l)) l)
  = flat_map h (seq a (length l)).
Proof.
  intros Hg. revert a. induction l as [|x l IH]; intros a; simpl;
    [reflexivity|].
  rewrite Hg, IH. reflexivity.
Qed.

Lemma count_off_diagonal (i m a : nat) :
  length (filter (fun j => negb (i =? j)) (seq a m))
  = m - (if (a <=? i) && (i <? a + m) then 1 else 0).
Proof.
  revert a. induction m as [|m IH]; intros a; cbn [seq filter].
  - destruct ((a <=? i) && (i <? a + 0)); reflexivity.
  - destruct (i =? a) eqn:Ea; cbn [negb length]; rewrite IH;
      destruct (Nat.leb_spec0 (S a) i), (Nat.ltb_spec0 i (S a + m)),
               (Nat.leb_spec0 a i), (Nat.ltb_spec0 i (a + S m));
      cbn [andb];
      (apply Nat.eqb_eq in Ea || apply Nat.eqb_neq in Ea); lia.
Qed.

Lemma count_upper (i m a : nat) :
  length (filter (fun j => i <? j) (seq a m)) = (a + m) - Nat.max a (S i).
Proof.
  revert a. induction m as [|m IH]; intros a; simpl; [lia|].
  specialize (IH (S a)).
  destruct (i <? a) eqn:E; simpl; rewrite IH.
  - apply Nat.ltb_lt in E. lia.
  - apply Nat.ltb_ge in E. lia.
Qed.

Lemma twice_triangle (m a : nat) :
  2 * list_sum (map (fun i => (a + m) - S i) (seq a m)) = m * (m - 1).
Proof.
  revert a. induction m as [|m IH]; intros a; simpl map; simpl list_sum;
    [reflexivity|].
  specialize (IH (S a)).
  rewrite (map_ext (fun i => a + S m - S i) (fun i => S a + m - S i))
    by (intros; lia).
  nia.
Qed.

Lemma length_off_diagonal (n : nat) :
  length (filter off_diagonal (index_pairs n)) = n * (n - 1).
Proof.
  unfold index_pairs. rewrite filter_flat_map.
  rewrite (flat_map_constant_length (c := n - 1)), length_seq; [reflexivity|].
  intros i Hi. apply in_seq in Hi.
  rewrite length_filter_map. unfold off_diagonal. simpl.
  rewrite count_off_diagonal.
  replace (0 <=? i) with true by reflexivity.
  replace (i <? 0 + n) with true by (symmetry; apply Nat.ltb_lt; lia).
  reflexivity.
Qed.

Lemma length_upper_pairs (n : nat) :
  2 * length (upper_pairs n) = n * (n - 1).
Proof.
  unfold upper_pairs, index_pairs.
  rewrite filter_flat_map, length_flat_map.
  rewrite <- (twice_triangle n 0). f_equal. f_equal.
  apply map_ext. intros i.
  rewrite length_filter_map. unfold upper. simpl.
  rewrite count_upper. lia.
Qed.

Lemma upper_pairs_div2 (n : nat) :
  length (upper_pairs n) = n * (n - 1) / 2.
Proof.
  rewrite <- length_upper_pairs.
  rewrite Nat.mul_comm, Nat.div_mul by discriminate. reflexivity.
Qed.

Lemma NoDup_upper_pairs (n : nat) : NoDup (upper_pairs n).
Proof.
  apply NoDup_filter, sorted_NoDup, sorted_index_pairs.
Qed.

(** ** The tasks and their results *)

(** The tasks are created for every ordered pair of distinct indices. *)
Lemma schedule_tasks_keys (valid_places : list place) :
  map task_key (schedule_tasks valid_places)
  = filter off_diagonal (index_pairs (length valid_places)).
Proof.
  unfold schedule_tasks, enumerate, index_pairs.
  rewrite map_flat_map, filter_flat_map.
  rewrite <- (flat_map_enumerate
    (fun i (place1 : place) =>
       map task_key
         (flat_map (fun '(j, place2) =>
            if negb (i =? j) && negb (dict_mem (j, i) [])
            then [mkTask (i, j) place1 place2] else [])
            (combine (seq 0 (length valid_places)) valid_places)))
    (fun i =>
       filter off_diagonal (map (pair i) (seq 0 (length valid_places))))).
  - apply flat_map_ext. intros [i p]. reflexivity.
  - intros i place1. rewrite map_flat_map, filter_map_cases.
    rewrite <- (flat_map_enumerate
      (fun j (place2 : place) =>
         map task_key
           (if negb (i =? j) && negb (dict_mem (j, i) [])
            then [mkTask (i, j) place1 place2] else []))
      (fun j => if off_diagonal (i, j) then [(i, j)] else [])).
    + apply flat_map_ext. intros [j p]. reflexivity.
    + intros j place2. unfold off_diagonal. simpl.
      destruct (i =? j); reflexivity.
Qed.

Lemma length_schedule_tasks (valid_places : list place) :
  length (schedule_tasks valid_places)
  = length valid_places * (length valid_places - 1).
Proof.
  rewrite <- length_off_diagonal, <- schedule_tasks_keys, length_map.
  reflexivity.
Qed.

Section Gather.

Variable get_travel_time : nat -> endpoint -> endpoint -> provider_outcome.

(** No lookup hands an exception to [gather]. *)
Lemma gather_from_values (tasks : list task) :
  forall k, gather_from get_travel_time k tasks
            = map Returned (lookup_values get_travel_time k tasks).
Proof.
  induction tasks as [|t tasks IH]; intros k; simpl; [reflexivity|].
  rewrite IH.
  destruct (get_travel_time k _ _); reflexivity.
Qed.

Lemma length_lookup_values (tasks : list task) :
  forall k, length (lookup_values get_travel_time k tasks) = length tasks.
Proof.
  induction tasks as [|t tasks IH]; intros k; simpl; auto.
Qed.

(** The dict after the fill loop, before the failed entries are replaced *)
Lemma fill_matrix_gather (valid_places : list place) :
  fill_matrix valid_places
    (gather get_travel_time (schedule_tasks valid_places))
  = Value (combine (upper_pairs (length valid_places))
             (lookup_values get_travel_time 0 (schedule_tasks valid_places)),
           length (upper_pairs (length valid_places))).
Proof.
  unfold gather. rewrite gather_from_values.
  apply fill_matrix_closed.
  rewrite length_lookup_values, length_schedule_tasks.
  pose proof (length_upper_pairs (length valid_places)). lia.
Qed.

End Gather.

(** ** Replacing the failed entries *)

Lemma keys_combine {A B : Type} (l1 : list A) (l2 : list B) :
  length l1 <= length l2 -> map fst (combine l1 l2) = l1.
Proof.
  revert l2. induction l1 as [|a l1 IH]; intros [|b l2]; simpl; intros H;
    try reflexivity; try lia.
  rewrite IH by lia. reflexivity.
Qed.

Lemma backfill_loop (avg : Q) (rest : list (key * Q)) :
  forall pre : list (key * Q),
    NoDup (keys (pre ++ rest)) ->
    for_each (keys rest)
      (fun tt k =>
         v <- dict_item k tt ;;
         if Qeq_bool v sentinel then Value (dict_set k avg tt) else Value tt)
      (pre ++ rest)
    = Value (pre ++ map (replace_failed avg) rest).
Proof.
  induction rest as [|[k v] rest IH]; intros pre Hnd; simpl.
  - reflexivity.
  - assert (Hk : ~ In k (keys pre)).
    { unfold keys in Hnd. rewrite map_app in Hnd. simpl in Hnd.
      apply NoDup_remove_2 in Hnd. intros Hin. apply Hnd.
      apply in_or_app. auto. }
    unfold dict_item. rewrite (dict_get_middle _ _ _ _ Hk). simpl bind.
    unfold replace_failed at 1. simpl fst. simpl snd.
    destruct (Qeq_bool v sentinel); simpl bind.
    + rewrite (dict_set_middle _ _ _ _ _ Hk).
      change (pre ++ (k, avg) :: rest) with (pre ++ [(k, avg)] ++ rest).
      rewrite app_assoc, IH.
      * rewrite <- app_assoc. reflexivity.
      * unfold keys in *. rewrite <- app_assoc, !map_app in *. exact Hnd.
    + change (pre ++ (k, v) :: rest) with (pre ++ [(k, v)] ++ rest).
      rewrite app_assoc, IH.
      * rewrite <- app_assoc. reflexivity.
      * rewrite <- app_assoc. exact Hnd.
Qed.

Lemma backfill_closed (travel_times : list (key * Q)) :
  NoDup (keys travel_times) ->
  backfill travel_times
  = Value (map (replace_failed (avg_travel_time travel_times)) travel_times).
Proof.
  intros Hnd. unfold backfill.
  exact (backfill_loop (avg_travel_time travel_times) travel_times [] Hnd).
Qed.

Lemma keys_replace_failed (avg : Q) (d : list (key * Q)) :
  keys (map (replace_failed avg) d) = keys d.
Proof.
  unfold keys. rewrite map_map. reflexivity.
Qed.

Lemma dict_get_replace_failed (avg : Q) (k : key) (d : list (key * Q)) :
  dict_get k (map (replace_failed avg) d)
  = option_map (fun v => if Qeq_bool v sentinel then avg else v)
               (dict_get k d).
Proof.
  induction d as [|[k' v] d IH]; simpl; [reflexivity|].
  destruct (key_eqb k k'); [reflexivity | exact IH].
Qed.

Section Matrix.

Variable get_travel_time : nat -> endpoint -> endpoint -> provider_outcome.
Variable valid_places : list place.

Lemma keys_recorded_matrix :
  keys (recorded_matrix get_travel_time valid_places)
  = upper_pairs (length valid_places).
Proof.
  unfold recorded_matrix, keys. apply keys_combine.
  rewrite length_lookup_values, length_schedule_tasks.
  pose proof (length_upper_pairs (length valid_places)). lia.
Qed.

(** The dict the greedy selection reads *)
Lemma travel_matrix_closed :
  travel_matrix get_travel_time valid_places
  = Value (map (replace_failed
                  (avg_travel_time
                     (recorded_matrix get_travel_time valid_places)))
               (recorded_matrix get_travel_time valid_places)).
Proof.
  unfold travel_matrix. rewrite fill_matrix_gather. simpl bind.
  apply backfill_closed.
  rewrite keys_recorded_matrix. apply NoDup_upper_pairs.
Qed.

End Matrix.

(** ** The greedy selection *)

Lemma min_from_In (key_of : nat -> ext) (l : list nat) :
  forall best, In (min_from key_of best l) (best :: l).
Proof.
  induction l as [|x l IH]; intros best; simpl; [auto|].
  destruct (ext_ltb (key_of x) (key_of best)).
  - right. apply IH.
  - destruct (IH best) as [H|H]; auto.
Qed.

(** Without a strictly smaller key later on, [min] keeps the first member. *)
Lemma min_from_first (key_of : nat -> ext) (l : list nat) (best : nat) :
  (forall x, In x l -> ext_ltb (key_of x) (key_of best) = false) ->
  min_from key_of best l = best.
Proof.
  induction l as [|x l IH]; simpl; intros H; [reflexivity|].
  rewrite (H x) by auto. apply IH. auto.
Qed.

Lemma set_remove_In (x : nat) (s : list nat) :
  In x s ->
  exists s', set_remove x s = Value s' /\ Permutation s (x :: s')
             /\ length s = S (length s').
Proof.
  induction s as [|y s IH]; simpl; intros Hin; [contradiction|].
  destruct (x =? y) eqn:E.
  - apply Nat.eqb_eq in E. subst. exists s. auto.
  - apply Nat.eqb_neq in E. destruct Hin as [->|Hin]; [congruence|].
    destruct (IH Hin) as [s' [-> [Hp Hl]]]. simpl.
    exists (y :: s'). split; [reflexivity|]. split.
    + rewrite Hp. apply perm_swap.
    + simpl. lia.
Qed.

Section Greedy.

Variable valid_places : list place.
Variable travel_times : list (key * Q).

(** The loop ends, and what it appends are the places of the unvisited
    indices, each once. *)
Lemma greedy_loop_visits (fuel : nat) :
  forall (optimized_route : list place) (unvisited : list nat)
         (current : nat),
    length unvisited <= fuel ->
    (forall x, In x unvisited -> x < length valid_places) ->
    exists (added : list place) (order : list nat),
      greedy_loop fuel valid_places travel_times optimized_route unvisited
                  current
      = Value (optimized_route ++ added)
      /\ Permutation order unvisited
      /\ Forall2 (fun p i => nth_error valid_places i = Some p) added order.
Proof.
  induction fuel as [|fuel IH]; intros route unvisited current Hlen Hin.
  - destruct unvisited; [|simpl in Hlen; lia].
    exists [], []. simpl. rewrite app_nil_r. auto.
  - destruct unvisited as [|x0 rest].
    + exists [], []. simpl. rewrite app_nil_r. auto.
    + cbn [greedy_loop py_min bind].
      set (next_place := min_from (travel_key travel_times current) x0 rest).
      assert (Hnext : In next_place (x0 :: rest)) by apply min_from_In.
      destruct (nth_error valid_places next_place) as [p|] eqn:Hp;
        [|apply nth_error_None in Hp; specialize (Hin _ Hnext); lia].
      unfold index. rewrite Hp. cbn [bind].
      destruct (set_remove_In _ _ Hnext) as [s' [-> [Hperm Hl]]].
      cbn [bind].
      destruct (IH (route ++ [p]) s' next_place)
        as [added [order [-> [Ho Hf]]]].
      * simpl in Hlen, Hl. lia.
      * intros x Hx. apply Hin.
        apply (Permutation_in _ (Permutation_sym Hperm)).
        right. exact Hx.
      * exists (p :: added), (next_place :: order).
        split; [rewrite <- app_assoc; reflexivity|]. split.
        -- rewrite Hperm. constructor. exact Ho.
        -- constructor; assumption.
Qed.

Lemma greedy_route_visits :
  1 <= length valid_places ->
  exists (route : list place) (order : list nat),
    greedy_route valid_places travel_times = Value route
    /\ Permutation order (seq 0 (length valid_places))
    /\ Forall2 (fun p i => nth_error valid_places i = Some p) route order
    /\ hd_error route = hd_error valid_places.
Proof.
  intros Hn. unfold greedy_route.
  destruct valid_places as [|p0 vp] eqn:Hvp; [simpl in Hn; lia|].
  cbn [index nth_error bind length seq set_remove Nat.eqb].
  destruct (greedy_loop_visits (length (seq 1 (length vp))) [p0]
              (seq 1 (length vp)) 0) as [added [order [Hrun [Ho Hf]]]].
  - reflexivity.
  - intros x Hx. apply in_seq in Hx. rewrite Hvp. simpl. lia.
  - rewrite Hvp in Hrun. rewrite Hrun.
    exists (p0 :: added), (0 :: order). split; [reflexivity|]. split.
    + constructor. exact Ho.
    + split; [|reflexivity]. constructor; [reflexivity|].
      rewrite Hvp in Hf. exact Hf.
Qed.

End Greedy.

Lemma nth_error_all {A : Type} (l : list A) :
  map (nth_error l) (seq 0 (length l)) = map Some l.
Proof.
  induction l as [|a l IH]; simpl; [reflexivity|].
  rewrite <- seq_shift, map_map. simpl. f_equal. exact IH.
Qed.

Lemma map_Some_inj {A : Type} (l1 l2 : list A) :
  map Some l1 = map Some l2 -> l1 = l2.
Proof.
  revert l2. induction l1 as [|a l1 IH]; intros [|b l2]; simpl;
    try discriminate; [reflexivity|].
  intros [= -> H]. rewrite (IH _ H). reflexivity.
Qed.

(** A list that reads every index of [l] once is a permutation of [l]. *)
Lemma visits_permutation {A : Type} (l route : list A) (order : list nat) :
  Permutation order (seq 0 (length l)) ->
  Forall2 (fun p i => nth_error l i = Some p) route order ->
  Permutation route l.
Proof.
  intros Hperm Hf.
  assert (Hmap : map Some route = map (nth_error l) order).
  { clear Hperm.
    induction Hf as [|p i route order Hp _ IH]; simpl; [reflexivity|].
    rewrite Hp, IH. reflexivity. }
  pose proof (Permutation_map (nth_error l) Hperm) as Hm.
  rewrite <- Hmap, nth_error_all in Hm.
  apply Permutation_sym in Hm.
  destruct (Permutation_map_inv _ _ Hm) as [l3 [Heq Hp3]].
  apply map_Some_inj in Heq. subst l3. exact Hp3.
Qed.

(** ** The optimizer as a whole *)

Section Whole.

Variable get_travel_time : nat -> endpoint -> endpoint -> provider_outcome.

Lemma optimize_short (places : list place) :
  length places <= 1 ->
  _optimize_travel_path get_travel_time places = ([], Value places).
Proof.
  intros H. unfold _optimize_travel_path.
  apply Nat.leb_le in H. rewrite H. reflexivity.
Qed.

Lemma optimize_few_valid (places : list place) :
  2 <= length places ->
  length (valid_places_of places) < 2 ->
  _optimize_travel_path get_travel_time places
  = ([], Value (valid_places_of places)).
Proof.
  intros H1 H2. unfold _optimize_travel_path.
  replace (length places <=? 1) with false
    by (symmetry; apply Nat.leb_gt; lia).
  apply Nat.ltb_lt in H2. rewrite H2. reflexivity.
Qed.

Lemma optimize_full (places : list place) :
  2 <= length (valid_places_of places) ->
  _optimize_travel_path get_travel_time places
  = (schedule_tasks (valid_places_of places),
     travel_times <- travel_matrix get_travel_time (valid_places_of places) ;;
     greedy_route (valid_places_of places) travel_times).
Proof.
  intros H. unfold _optimize_travel_path.
  pose proof (filter_length_le has_coords places) as Hle.
  fold (valid_places_of places) in Hle.
  replace (length places <=? 1) with false
    by (symmetry; apply Nat.leb_gt; lia).
  replace (length (valid_places_of places) <? 2) with false
    by (symmetry; apply Nat.ltb_ge; lia).
  reflexivity.
Qed.

(** With two valid places or more the optimizer returns, and its route
    reads every index of the valid places once, the index 0 first. *)
Lemma optimize_visits (places : list place) :
  2 <= length (valid_places_of places) ->
  exists (route : list place) (order : list nat),
    snd (_optimize_travel_path get_travel_time places) = Value route
    /\ Permutation order (seq 0 (length (valid_places_of places)))
    /\ Forall2 (fun p i => nth_error (valid_places_of places) i = Some p)
               route order
    /\ hd_error route = hd_error (valid_places_of places).
Proof.
  intros H. rewrite (optimize_full _ H). cbn [snd].
  rewrite travel_matrix_closed. cbn [bind].
  apply greedy_route_visits. lia.
Qed.

Lemma valid_places_all (places : list place) :
  Forall (fun p => has_coords p = true) places ->
  valid_places_of places = places.
Proof.
  unfold valid_places_of.
  induction 1 as [|p places Hp _ IH]; simpl; [reflexivity|].
  rewrite Hp, IH. reflexivity.
Qed.

End Whole.

(** ** All lookups failing *)

Section Ties.

Variable valid_places : list place.
Variable travel_times : list (key * Q).
Variable s : Q.

Hypothesis all_tie :
  forall i j, i < j -> j < length valid_places ->
              dict_get (i, j) travel_times = Some s.

(** When every candidate has the same key, the loop walks on in index
    order. *)
Lemma greedy_loop_ties (m : nat) :
  forall (fuel : nat) (optimized_route : list place) (current : nat),
    m <= fuel ->
    S current + m = length valid_places ->
    greedy_loop fuel valid_places travel_times optimized_route
                (seq (S current) m) current
    = Value (optimized_route ++ skipn (S current) valid_places).
Proof.
  induction m as [|m IH]; intros fuel route c Hfuel Hn.
  - destruct fuel; cbn [seq greedy_loop]; rewrite skipn_all2 by lia;
      rewrite app_nil_r; reflexivity.
  - destruct fuel as [|fuel]; [lia|].
    cbn [seq greedy_loop py_min bind].
    rewrite min_from_first.
    + destruct (nth_error valid_places (S c)) as [p|] eqn:Hp;
        [|apply nth_error_None in Hp; lia].
      unfold index. rewrite Hp. cbn [bind set_remove].
      rewrite Nat.eqb_refl. cbn [bind].
      rewrite IH by lia.
      rewrite (skipn_nth_error _ _ _ Hp), <- app_assoc. reflexivity.
    + intros x Hx. apply in_seq in Hx. unfold travel_key.
      rewrite !all_tie by lia. simpl.
      replace (Qle_bool s s) with true; [reflexivity|].
      symmetry. apply Qle_bool_iff. apply Qle_refl.
Qed.

Lemma greedy_route_ties :
  1 <= length valid_places ->
  greedy_route valid_places travel_times = Value valid_places.
Proof.
  intros Hn. unfold greedy_route.
  destruct (nth_error valid_places 0) as [p0|] eqn:Hp0;
    [|apply nth_error_None in Hp0; lia].
  unfold index. rewrite Hp0. cbn [bind].
  assert (Hseq : seq 0 (length valid_places)
                 = 0 :: seq 1 (length valid_places - 1)).
  { revert Hn. destruct (length valid_places); [lia|].
    intros _. simpl. rewrite Nat.sub_0_r. reflexivity. }
  rewrite Hseq. cbn [set_remove Nat.eqb bind].
  rewrite length_seq, greedy_loop_ties by lia.
  pose proof (skipn_nth_error _ _ _ Hp0) as Hs.
  change (skipn 0 valid_places) with valid_places in Hs.
  f_equal. symmetry. exact Hs.
Qed.

End Ties.

Section AllFailed.

Variable get_travel_time : nat -> endpoint -> endpoint -> provider_outcome.

Hypothesis every_lookup_fails :
  forall k origin destination,
    failed (get_travel_time k origin destination) = true.

Lemma lookup_values_failed (tasks : list task) :
  forall k v, In v (lookup_values get_travel_time k tasks) -> v = sentinel.
Proof.
  induction tasks as [|t tasks IH]; intros k v; simpl; [contradiction|].
  intros [<-|Hin]; [|eauto].
  pose proof (every_lookup_fails k (endpoint_of (task_origin t))
                (endpoint_of (task_destination t))) as Hf.
  destruct (get_travel_time k _ _); simpl in *; congruence.
Qed.

Lemma recorded_matrix_failed (valid_places : list place) (k : key) (v : Q) :
  In (k, v) (recorded_matrix get_travel_time valid_places) -> v = sentinel.
Proof.
  intros Hin. apply in_combine_r in Hin.
  exact (lookup_values_failed _ _ _ Hin).
Qed.

Lemma valid_times_failed (valid_places : list place) :
  valid_times (recorded_matrix get_travel_time valid_places) = [].
Proof.
  unfold valid_times, values.
  assert (H : forall kv, In kv (recorded_matrix get_travel_time valid_places)
                         -> snd kv = sentinel).
  { intros [k v] Hin. exact (recorded_matrix_failed _ _ _ Hin). }
  induction (recorded_matrix get_travel_time valid_places) as [|kv d IH];
    simpl; [reflexivity|].
  rewrite (H kv) by (simpl; auto). simpl.
  apply IH. intros; apply H; simpl; auto.
Qed.

Lemma travel_matrix_failed (valid_places : list place) :
  exists travel_times,
    travel_matrix get_travel_time valid_places = Value travel_times
    /\ keys travel_times = upper_pairs (length valid_places)
    /\ (forall k v, In (k, v) travel_times -> v = sentinel).
Proof.
  rewrite travel_matrix_closed. eexists. split; [reflexivity|]. split.
  - rewrite keys_replace_failed. apply keys_recorded_matrix.
  - intros k v Hin. apply in_map_iff in Hin as [[k' v'] [Heq Hin]].
    unfold replace_failed in Heq. simpl in Heq. injection Heq as _ <-.
    rewrite (recorded_matrix_failed _ _ _ Hin).
    unfold avg_travel_time. rewrite valid_times_failed. reflexivity.
Qed.

End AllFailed.

(** ** The route is a permutation *)

(** C1, as the spec states it, fails for a place with the longitude 0:
    the three places have valid coordinates, the place on the prime
    meridian does not pass the filter of line 147, and the route has two
    places.  The three places of the example of the spec lie on the
    equator and are all dropped. *)
Lemma C1_place_on_the_meridian_is_dropped :
  2 <= length [place_A; place_G; place_B]
  /\ forallb spec_valid_coordinates [place_A; place_G; place_B] = true
  /\ snd (_optimize_travel_path (always (Duration 5))
            [place_A; place_G; place_B])
     = Value [place_A; place_B]
  /\ ~ Permutation [place_A; place_B] [place_A; place_G; place_B]
  /\ forallb spec_valid_coordinates [place_0_0; place_0_1; place_0_10] = true
  /\ snd (_optimize_travel_path (always (Duration 5))
            [place_0_0; place_0_1; place_0_10])
     = Value [].
Proof.
  split; [simpl; lia|]. split; [reflexivity|]. split; [reflexivity|].
  split; [|split; reflexivity].
  intros Hp. apply Permutation_length in Hp. simpl in Hp. discriminate.
Qed.

(** C1 (amended): for every list of at least two places that all have
    both coordinates present and truthy (a [mapx] and a [mapy] that are
    neither absent, [None], zero nor the empty string), and a provider
    whose every lookup returns a travel time,
    [_optimize_travel_path] returns a route that is a permutation of the
    input: it has the length of the input, starts with the first input
    place, and reads every index of the input exactly once. *)
Theorem C1_route_is_permutation
    (get_travel_time : nat -> endpoint -> endpoint -> provider_outcome)
    (places : list place) :
  2 <= length places ->
  Forall (fun p => has_coords p = true) places ->
  (forall k origin destination,
      exists t, get_travel_time k origin destination = Duration t) ->
  exists (route : list place) (order : list nat),
    snd (_optimize_travel_path get_travel_time places) = Value route
    /\ length route = length places
    /\ hd_error route = hd_error places
    /\ Permutation route places
    /\ Permutation order (seq 0 (length places))
    /\ Forall2 (fun p i => nth_error places i = Some p) route order.
Proof.
  intros Hlen Hvalid _.
  pose proof (valid_places_all places Hvalid) as Hvp.
  destruct (optimize_visits get_travel_time places)
    as [route [order [Hrun [Hperm [Hf Hhd]]]]].
  { rewrite Hvp. exact Hlen. }
  rewrite Hvp in Hperm, Hf, Hhd.
  pose proof (visits_permutation places route order Hperm Hf) as Hp.
  exists route, order. repeat split; try assumption.
  apply Permutation_length. exact Hp.
Qed.

Lemma C1_route_is_permutation_witness :
  2 <= length [place_A; place_B; place_C]
  /\ Forall (fun p => has_coords p = true) [place_A; place_B; place_C]
  /\ exists (route : list place) (order : list nat),
       snd (_optimize_travel_path (always (Duration 5))
              [place_A; place_B; place_C]) = Value route
       /\ length route = length [place_A; place_B; place_C]
       /\ hd_error route = hd_error [place_A; place_B; place_C]
       /\ Permutation route [place_A; place_B; place_C]
       /\ Permutation order (seq 0 (length [place_A; place_B; place_C]))
       /\ Forall2 (fun p i => nth_error [place_A; place_B; place_C] i = Some p)
                  route order.
Proof.
  assert (H2 : 2 <= length [place_A; place_B; place_C]) by (simpl; lia).
  assert (Hv : Forall (fun p => has_coords p = true)
                 [place_A; place_B; place_C])
    by (repeat constructor).
  split; [exact H2|]. split; [exact Hv|].
  apply (C1_route_is_permutation (always (Duration 5))
           [place_A; place_B; place_C] H2 Hv).
  intros k origin destination. exists 5%Q. reflexivity.
Defined.

(** ** Short inputs *)

(** C8: for every input list of length at most 1,
    [_optimize_travel_path] returns the input list unchanged and issues no
    travel-time lookup. *)
Theorem C8_short_input_unchanged
    (get_travel_time : nat -> endpoint -> endpoint -> provider_outcome)
    (places : list place) :
  length places <= 1 ->
  _optimize_travel_path get_travel_time places = ([], Value places).
Proof.
  apply optimize_short.
Qed.

Lemma C8_short_input_unchanged_witness :
  length [place_A] <= 1
  /\ _optimize_travel_path (always (Duration 5)) [place_A]
     = ([], Value [place_A]).
Proof.
  assert (H : length [place_A] <= 1) by (simpl; lia).
  split; [exact H|].
  exact (C8_short_input_unchanged (always (Duration 5)) [place_A] H).
Defined.

(** C7, as the spec states it, fails for a single place without
    coordinates: fewer than two places have valid coordinates, the valid
    subset is empty, and the optimizer returns the place.  It also fails
    for two places of which one has coordinates outside every range:
    fewer than two places have valid coordinates, two lookups are issued
    and both places are returned. *)
Lemma C7_single_unlocated_place_is_returned :
  length (valid_places_of [place_unlocated]) < 2
  /\ valid_places_of [place_unlocated] = []
  /\ snd (_optimize_travel_path (always TimedOut) [place_unlocated])
     = Value [place_unlocated]
  /\ snd (_optimize_travel_path (always TimedOut) [place_unlocated])
     <> Value (valid_places_of [place_unlocated])
  /\ length (filter spec_valid_coordinates [place_A; place_off_the_map]) < 2
  /\ length (fst (_optimize_travel_path (always TimedOut)
                    [place_A; place_off_the_map])) = 2
  /\ snd (_optimize_travel_path (always TimedOut)
            [place_A; place_off_the_map])
     = Value [place_A; place_off_the_map].
Proof.
  split; [simpl; lia|]. split; [reflexivity|]. split; [reflexivity|].
  split; [simpl; discriminate|].
  split; [simpl; lia|]. split; reflexivity.
Qed.

(** C7 (amended): for every input list in which fewer than 2 places have
    both coordinates present and truthy (a [mapx] and a [mapy] that are
    neither absent, [None], zero nor the empty string), the optimizer
    issues no travel-time lookup; it returns the input list unchanged
    when the list has at most one place, and otherwise exactly the
    places with truthy coordinates, in input order. *)
Theorem C7_few_valid_places
    (get_travel_time : nat -> endpoint -> endpoint -> provider_outcome)
    (places : list place) :
  length (valid_places_of places) < 2 ->
  _optimize_travel_path get_travel_time places
  = ([], Value (if length places <=? 1 then places
                else filter has_coords places)).
Proof.
  intros Hfew. destruct (length places <=? 1) eqn:E.
  - apply optimize_short. apply Nat.leb_le. exact E.
  - apply Nat.leb_gt in E. apply optimize_few_valid; [lia | exact Hfew].
Qed.

Lemma C7_few_valid_places_witness :
  length (valid_places_of [place_unlocated; place_A; place_unlocated]) < 2
  /\ _optimize_travel_path (always (Duration 5))
       [place_unlocated; place_A; place_unlocated]
     = ([], Value [place_A]).
Proof.
  assert (H : length (valid_places_of
                        [place_unlocated; place_A; place_unlocated]) < 2)
    by (simpl; lia).
  split; [exact H|].
  exact (C7_few_valid_places (always (Duration 5))
           [place_unlocated; place_A; place_unlocated] H).
Defined.

(** ** Every lookup failing *)

(** C6, as the spec states it, fails for a single place without
    coordinates: no lookup is issued, so that every lookup fails, and the
    route is the place itself, not the filtered input, which is empty. *)
Lemma C6_single_place_is_not_filtered :
  (forall k origin destination,
      failed (always TimedOut k origin destination) = true)
  /\ filter has_coords [place_unlocated] = []
  /\ snd (_optimize_travel_path (always TimedOut) [place_unlocated])
     = Value [place_unlocated]
  /\ snd (_optimize_travel_path (always TimedOut) [place_unlocated])
     <> Value (filter has_coords [place_unlocated]).
Proof.
  split; [intros; reflexivity|]. split; [reflexivity|].
  split; [reflexivity|]. simpl. discriminate.
Qed.

(** C6 (amended): if every pairwise lookup fails, the dictionary holds
    exactly one entry for every pair [(i, j)], [i < j], of places that
    pass the filter, every entry holds the sentinel 99999, and every
    candidate the greedy selection looks at ties on the sentinel; the
    route is the filtered input, in input order, when the input has two
    places or more, and the input itself, not filtered, when it has at
    most one place. *)
Theorem C6_all_failed_keeps_input_order
    (get_travel_time : nat -> endpoint -> endpoint -> provider_outcome)
    (places : list place) :
  (forall k origin destination,
      failed (get_travel_time k origin destination) = true) ->
  snd (_optimize_travel_path get_travel_time places)
  = Value (if length places <=? 1 then places else filter has_coords places)
  /\ exists travel_times,
       travel_matrix get_travel_time (filter has_coords places)
       = Value travel_times
       /\ (forall i j,
             In (i, j) (keys travel_times)
             <-> i < j /\ j < length (filter has_coords places))
       /\ (forall i j,
             i < j -> j < length (filter has_coords places) ->
             dict_get (i, j) travel_times = Some sentinel
             /\ travel_key travel_times i j = Fin sentinel).
Proof.
  intros Hfail.
  fold (valid_places_of places).
  destruct (travel_matrix_failed get_travel_time Hfail (valid_places_of places))
    as [tt [Htt [Hkeys Hall]]].
  assert (Hget : forall i j, i < j -> j < length (valid_places_of places) ->
                             dict_get (i, j) tt = Some sentinel).
  { intros i j Hij Hj.
    destruct (dict_get_Some_key (i, j) tt) as [v Hv].
    - rewrite Hkeys. apply in_upper_pairs. lia.
    - rewrite Hv. f_equal. apply (Hall (i, j)). apply dict_get_In. exact Hv. }
  split.
  - destruct (length places <=? 1) eqn:E.
    + apply Nat.leb_le in E. rewrite optimize_short by exact E. reflexivity.
    + apply Nat.leb_gt in E.
      destruct (Nat.lt_ge_cases (length (valid_places_of places)) 2)
        as [Hfew|Hmany].
      * rewrite optimize_few_valid by (assumption || lia). reflexivity.
      * rewrite optimize_full by assumption. cbn [snd].
        rewrite Htt. cbn [bind].
        apply greedy_route_ties with (s := sentinel); [exact Hget | lia].
  - exists tt. split; [exact Htt|]. split.
    + intros i j. rewrite Hkeys. apply in_upper_pairs.
    + intros i j Hij Hj. split; [exact (Hget i j Hij Hj)|].
      unfold travel_key. rewrite (Hget i j Hij Hj). reflexivity.
Qed.

Lemma C6_all_failed_keeps_input_order_witness :
  (forall k origin destination,
      failed (always TimedOut k origin destination) = true)
  /\ snd (_optimize_travel_path (always TimedOut)
            [place_A; place_unlocated; place_B; place_C])
     = Value [place_A; place_B; place_C]
  /\ exists travel_times,
       travel_matrix (always TimedOut) [place_A; place_B; place_C]
       = Value travel_times
       /\ (forall i j,
             In (i, j) (keys travel_times) <-> i < j /\ j < 3)
       /\ (forall i j,
             i < j -> j < 3 ->
             dict_get (i, j) travel_times = Some sentinel
             /\ travel_key travel_times i j = Fin sentinel).
Proof.
  assert (H : forall k origin destination,
             failed (always TimedOut k origin destination) = true)
    by (intros; reflexivity).
  split; [exact H|].
  exact (C6_all_failed_keeps_input_order (always TimedOut)
           [place_A; place_unlocated; place_B; place_C] H).
Defined.

(** ** Which places are ordered *)

(** C9, as the spec states it, fails: a place whose coordinates lie
    outside the ranges of a latitude and a longitude passes the filter
    and is ordered. *)
Lemma C9_place_off_the_map_is_ordered :
  spec_valid_coordinates place_off_the_map = false
  /\ In place_off_the_map (valid_places_of [place_A; place_off_the_map])
  /\ snd (_optimize_travel_path (always (Duration 5))
            [place_A; place_off_the_map])
     = Value [place_A; place_off_the_map].
Proof.
  split; [reflexivity|]. split; [simpl; auto | reflexivity].
Qed.

(** C9 (amended): every place that enters the greedy ordering step has
    both coordinates present and truthy (a [mapx] and a [mapy] that are
    neither absent, [None], zero nor the empty string); the places of
    the input failing this check are dropped before the ordering begins,
    and the route consists of the remaining places. *)
Theorem C9_ordered_places_have_coordinates
    (get_travel_time : nat -> endpoint -> endpoint -> provider_outcome)
    (places : list place) :
  2 <= length (valid_places_of places) ->
  exists route : list place,
    snd (_optimize_travel_path get_travel_time places) = Value route
    /\ Permutation route (valid_places_of places)
    /\ (forall p, In p route <->
                  In p places /\ truthy (get (mapx p)) = true
                              /\ truthy (get (mapy p)) = true).
Proof.
  intros Hlen.
  destruct (optimize_visits get_travel_time places Hlen)
    as [route [order [Hrun [Hperm [Hf _]]]]].
  pose proof (visits_permutation _ route order Hperm Hf) as Hp.
  exists route. split; [exact Hrun|]. split; [exact Hp|].
  intros p. split.
  - intros Hin. apply (Permutation_in _ Hp) in Hin.
    apply filter_In in Hin as [Hin Hc]. unfold has_coords in Hc.
    apply andb_true_iff in Hc. tauto.
  - intros [Hin [Hx Hy]]. apply (Permutation_in _ (Permutation_sym Hp)).
    apply filter_In. split; [exact Hin|].
    unfold has_coords. rewrite Hx, Hy. reflexivity.
Qed.

Lemma C9_ordered_places_have_coordinates_witness :
  2 <= length (valid_places_of [place_unlocated; place_A; place_B])
  /\ exists route : list place,
       snd (_optimize_travel_path (always (Duration 5))
              [place_unlocated; place_A; place_B]) = Value route
       /\ Permutation route
            (valid_places_of [place_unlocated; place_A; place_B])
       /\ (forall p, In p route <->
                     In p [place_unlocated; place_A; place_B]
                     /\ truthy (get (mapx p)) = true
                     /\ truthy (get (mapy p)) = true).
Proof.
  assert (H : 2 <= length (valid_places_of
                             [place_unlocated; place_A; place_B]))
    by (simpl; lia).
  split; [exact H|].
  exact (C9_ordered_places_have_coordinates (always (Duration 5))
           [place_unlocated; place_A; place_B] H).
Defined.

(** ** The keys of the dictionary *)

(** C10: when the fill loop is over for N valid places, the dictionary
    holds exactly the keys [(i, j)] with [i < j < N], each once,
    [N * (N - 1) / 2] entries in all; replacing the failed entries keeps
    the keys, and the greedy selection, asked for a current index greater
    than the candidate index, misses the dictionary and gets infinity. *)
Theorem C10_keys_are_the_upper_pairs
    (get_travel_time : nat -> endpoint -> endpoint -> provider_outcome)
    (valid_places : list place) :
  exists (recorded : list (key * Q)) (task_idx : nat)
         (travel_times : list (key * Q)),
    fill_matrix valid_places
      (gather get_travel_time (schedule_tasks valid_places))
    = Value (recorded, task_idx)
    /\ (forall i j, In (i, j) (keys recorded)
                    <-> i < j /\ j < length valid_places)
    /\ NoDup (keys recorded)
    /\ length recorded = length valid_places * (length valid_places - 1) / 2
    /\ backfill recorded = Value travel_times
    /\ keys travel_times = keys recorded
    /\ (forall current x,
           x < current -> travel_key travel_times current x = Inf).
Proof.
  pose proof (keys_recorded_matrix get_travel_time valid_places) as Hkeys.
  pose proof (NoDup_upper_pairs (length valid_places)) as Hnd.
  exists (recorded_matrix get_travel_time valid_places),
         (length (upper_pairs (length valid_places))),
         (map (replace_failed
                 (avg_travel_time
                    (recorded_matrix get_travel_time valid_places)))
              (recorded_matrix get_travel_time valid_places)).
  split; [apply fill_matrix_gather|].
  split; [intros i j; rewrite Hkeys; apply in_upper_pairs|].
  split; [rewrite Hkeys; exact Hnd|].
  split.
  { rewrite <- upper_pairs_div2, <- Hkeys. unfold keys.
    rewrite length_map. reflexivity. }
  split; [apply backfill_closed; rewrite Hkeys; exact Hnd|].
  split; [apply keys_replace_failed|].
  intros current x Hx. unfold travel_key.
  replace (dict_get (current, x) _) with (@None Q); [reflexivity|].
  symmetry. apply dict_get_None.
  rewrite keys_replace_failed, Hkeys, in_upper_pairs. lia.
Qed.

(** ** Replacing the sentinel by the mean *)






(** ** Lookups and the entries they are recorded in *)

(** C2: the code at three places.  Six lookups are issued, one for every
    ordered pair, where the claim has three; the entry of the pair (1, 2)
    records the result of the third lookup, which went from B to A, where
    the claim has the result of the lookup from B to C.  For every number
    of valid places [N >= 2] the lookups are [N * (N - 1)]. *)
Theorem C2_lookups_for_three_places :
  map task_key
      (fst (_optimize_travel_path (timetable directed_times)
              [place_A; place_B; place_C]))
  = [(0, 1); (0, 2); (1, 0); (1, 2); (2, 0); (2, 1)]
  /\ gather (timetable directed_times)
            (schedule_tasks [place_A; place_B; place_C])
     = [Returned 11; Returned 12; Returned 13;
        Returned 14; Returned 15; Returned 16]
  /\ fill_matrix [place_A; place_B; place_C]
       (gather (timetable directed_times)
               (schedule_tasks [place_A; place_B; place_C]))
     = Value ([((0, 1), 11%Q); ((0, 2), 12%Q); ((1, 2), 13%Q)], 3)
  /\ timetable directed_times 2 (endpoint_of place_B) (endpoint_of place_A)
     = Duration 13
  /\ timetable directed_times 3 (endpoint_of place_B) (endpoint_of place_C)
     = Duration 14
  /\ (forall get_travel_time places,
         2 <= length (valid_places_of places) ->
         length (fst (_optimize_travel_path get_travel_time places))
         = length (valid_places_of places)
           * (length (valid_places_of places) - 1)).
Proof.
  repeat split; try reflexivity.
  intros get_travel_time places H.
  rewrite (optimize_full get_travel_time places H). cbn [fst].
  apply length_schedule_tasks.
Qed.

(** C5: the code at three places, with a provider that answers within
    the limit except between B and C.  Both lookups between B and C run
    into the time limit and return the sentinel, and the optimizer
    returns a route; but the entry of the pair (1, 2) records 7, the
    result of the lookup from B to A, and not the sentinel. *)
Theorem C5_timeout_between_B_and_C :
  timetable times_without_BC 3 (endpoint_of place_B) (endpoint_of place_C)
  = TimedOut
  /\ timetable times_without_BC 5 (endpoint_of place_C) (endpoint_of place_B)
     = TimedOut
  /\ gather (timetable times_without_BC)
            (schedule_tasks [place_A; place_B; place_C])
     = [Returned 7; Returned 7; Returned 7;
        Returned sentinel; Returned 7; Returned sentinel]
  /\ fill_matrix [place_A; place_B; place_C]
       (gather (timetable times_without_BC)
               (schedule_tasks [place_A; place_B; place_C]))
     = Value ([((0, 1), 7%Q); ((0, 2), 7%Q); ((1, 2), 7%Q)], 3)
  /\ snd (_optimize_travel_path (timetable times_without_BC)
            [place_A; place_B; place_C])
     = Value [place_A; place_B; place_C].
Proof.
  repeat split; reflexivity.
Qed.

(** C3: the code at four places with symmetric travel times.  The
    dictionary stores 10 for the pair (1, 2); from the current place 2
    the greedy selection reads infinity for the candidate 1 and 50 for
    the candidate 3, moves to 3, and returns the route A, C, D, B. *)
Theorem C3_lookup_against_the_stored_direction :
  travel_matrix (timetable four_places_times)
    [place_A; place_B; place_C; place_D]
  = Value [((0, 1), 10%Q); ((0, 2), 1%Q); ((0, 3), 10%Q);
           ((1, 2), 10%Q); ((1, 3), 5%Q); ((2, 3), 50%Q)]
  /\ travel_key [((0, 1), 10%Q); ((0, 2), 1%Q); ((0, 3), 10%Q);
                 ((1, 2), 10%Q); ((1, 3), 5%Q); ((2, 3), 50%Q)] 2 1 = Inf
  /\ travel_key [((0, 1), 10%Q); ((0, 2), 1%Q); ((0, 3), 10%Q);
                 ((1, 2), 10%Q); ((1, 3), 5%Q); ((2, 3), 50%Q)] 2 3 = Fin 50
  /\ snd (_optimize_travel_path (timetable four_places_times)
            [place_A; place_B; place_C; place_D])
     = Value [place_A; place_C; place_D; place_B].
Proof.
  repeat split; reflexivity.
Qed.

(** ** The order of the keys and the member that [min] returns *)

Lemma Qltb_iff (x y : Q) : negb (Qle_bool y x) = true <-> (x < y)%Q.
Proof.
  rewrite negb_true_iff. split.
  - intros H. apply Qnot_le_lt. intros Hle.
    apply Qle_bool_iff in Hle. congruence.
  - intros H. destruct (Qle_bool y x) eqn:E; [|reflexivity].
    apply Qle_bool_iff in E. destruct (Qlt_not_le _ _ H E).
Qed.

Lemma Qltb_false_iff (x y : Q) : negb (Qle_bool y x) = false <-> (y <= x)%Q.
Proof.
  rewrite negb_false_iff. apply Qle_bool_iff.
Qed.

Lemma ext_ltb_irrefl (a : ext) : ext_ltb a a = false.
Proof.
  destruct a as [q|]; simpl; [|reflexivity].
  apply Qltb_false_iff. apply Qle_refl.
Qed.

Lemma ext_ltb_trans (a b c : ext) :
  ext_ltb a b = true -> ext_ltb b c = true -> ext_ltb a c = true.
Proof.
  destruct a as [x|], b as [y|], c as [z|]; simpl; try congruence.
  rewrite !Qltb_iff. apply Qlt_trans.
Qed.

Lemma ext_ltb_asym (a b : ext) : ext_ltb a b = true -> ext_ltb b a = false.
Proof.
  destruct a as [x|], b as [y|]; simpl; try congruence.
  rewrite Qltb_iff, Qltb_false_iff. apply Qlt_le_weak.
Qed.

(** [c < b] and not [a < b] give [c < a]. *)
Lemma ext_ltb_below (a b c : ext) :
  ext_ltb a b = false -> ext_ltb c b = true -> ext_ltb c a = true.
Proof.
  destruct a as [x|], b as [y|], c as [z|]; simpl; try congruence.
  rewrite Qltb_false_iff, !Qltb_iff. intros H1 H2.
  apply Qlt_le_trans with y; assumption.
Qed.

(** [min_from] returns the first member with the smallest key: what
    stands before it has a strictly greater key, what stands after it has
    no smaller key. *)
Lemma min_from_split (key_of : nat -> ext) (l : list nat) :
  forall (best : nat) (pre mid : list nat),
    (forall x, In x pre -> ext_ltb (key_of best) (key_of x) = true) ->
    (forall x, In x mid -> ext_ltb (key_of x) (key_of best) = false) ->
    exists l1 l2,
      pre ++ best :: mid ++ l = l1 ++ min_from key_of best l :: l2
      /\ (forall x, In x l1 ->
            ext_ltb (key_of (min_from key_of best l)) (key_of x) = true)
      /\ (forall x, In x l2 ->
            ext_ltb (key_of x) (key_of (min_from key_of best l)) = false).
Proof.
  induction l as [|x0 l IH]; intros best pre mid Hpre Hmid; simpl.
  - exists pre, mid. rewrite app_nil_r. auto.
  - destruct (ext_ltb (key_of x0) (key_of best)) eqn:E.
    + destruct (IH x0 (pre ++ best :: mid) []) as [l1 [l2 [Heq H]]].
      * intros x Hx. apply in_app_or in Hx as [Hx|[<-|Hx]].
        -- apply ext_ltb_trans with (key_of best); auto.
        -- exact E.
        -- apply ext_ltb_below with (key_of best); auto.
      * intros x [].
      * exists l1, l2. split; [|exact H].
        rewrite <- Heq. rewrite <- app_assoc. reflexivity.
    + destruct (IH best pre (mid ++ [x0])) as [l1 [l2 [Heq H]]].
      * exact Hpre.
      * intros x Hx. apply in_app_or in Hx as [Hx|[<-|[]]]; auto.
      * exists l1, l2. split; [|exact H].
        rewrite <- Heq. rewrite <- app_assoc. reflexivity.
Qed.

Lemma py_min_first_least (key_of : nat -> ext) (l : list nat) (m : nat) :
  py_min key_of l = Value m ->
  exists l1 l2,
    l = l1 ++ m :: l2
    /\ (forall x, In x l1 -> ext_ltb (key_of m) (key_of x) = true)
    /\ (forall x, In x l2 -> ext_ltb (key_of x) (key_of m) = false).
Proof.
  destruct l as [|x0 l]; simpl; [discriminate|].
  intros [= <-].
  destruct (min_from_split key_of l x0 [] []) as [l1 [l2 [Heq H]]].
  - intros x [].
  - intros x [].
  - exists l1, l2. split; [exact Heq | exact H].
Qed.

Lemma py_min_least (key_of : nat -> ext) (l : list nat) (m x : nat) :
  py_min key_of l = Value m -> In x l ->
  ext_ltb (key_of x) (key_of m) = false.
Proof.
  intros Hm Hx.
  destruct (py_min_first_least key_of l m Hm) as [l1 [l2 [-> [H1 H2]]]].
  apply in_app_or in Hx as [Hx|[<-|Hx]].
  - apply ext_ltb_asym. auto.
  - apply ext_ltb_irrefl.
  - auto.
Qed.

(** ** More about the optimizer *)

Lemma optimize_returns_route
    (get_travel_time : nat -> endpoint -> endpoint -> provider_outcome)
    (places : list place) :
  exists route : list place,
    snd (_optimize_travel_path get_travel_time places) = Value route
    /\ Permutation route
         (if length places <=? 1 then places else filter has_coords places)
    /\ (forall p, In p route -> In p places)
    /\ length route <= length places.
Proof.
  destruct (length places <=? 1) eqn:E.
  - apply Nat.leb_le in E. rewrite optimize_short by exact E.
    exists places. cbn [snd]. auto.
  - apply Nat.leb_gt in E.
    assert (Hsub : forall route,
               Permutation route (filter has_coords places) ->
               (forall p, In p route -> In p places)
               /\ length route <= length places).
    { intros route Hp. split.
      - intros p Hin. apply (Permutation_in _ Hp) in Hin.
        apply filter_In in Hin. tauto.
      - rewrite (Permutation_length Hp). apply filter_length_le. }
    destruct (Nat.lt_ge_cases (length (valid_places_of places)) 2)
      as [Hfew|Hmany].
    + rewrite optimize_few_valid by (assumption || lia).
      exists (valid_places_of places). cbn [snd].
      split; [reflexivity|]. split; [reflexivity|].
      apply Hsub. reflexivity.
    + destruct (optimize_visits get_travel_time places Hmany)
        as [route [order [Hrun [Hperm [Hf _]]]]].
      pose proof (visits_permutation _ route order Hperm Hf) as Hp.
      exists route. split; [exact Hrun|]. split; [exact Hp|].
      apply Hsub. exact Hp.
Qed.

(** X1: For every input, and every provider whose lookups return a
    number within [travel_time_bound], return [None], run into the time
    limit or raise an exception of the class [Exception], the call
    returns: no exception leaves it and the loop ends.  The route is the
    input itself for at most one place, a permutation of the places with
    coordinates otherwise; every place of the route is a place of the
    input. *)
Theorem optimize_always_returns
    (get_travel_time : nat -> endpoint -> endpoint -> provider_outcome)
    (places : list place) :
  bounded_answers get_travel_time ->
  exists route : list place,
    snd (_optimize_travel_path get_travel_time places) = Value route
    /\ Permutation route
         (if length places <=? 1 then places else filter has_coords places)
    /\ (forall p, In p route -> In p places)
    /\ length route <= length places.
Proof.
  intros _. apply optimize_returns_route.
Qed.

Lemma bounded_always_5 : bounded_answers (always (Duration 5)).
Proof.
  intros k origin destination t [= <-].
  split; unfold Qle; simpl; lia.
Qed.

Lemma optimize_always_returns_witness :
  bounded_answers (always (Duration 5))
  /\ exists route : list place,
       snd (_optimize_travel_path (always (Duration 5))
              [place_B; place_unlocated; place_A]) = Value route
       /\ Permutation route [place_B; place_A]
       /\ (forall p, In p route ->
                     In p [place_B; place_unlocated; place_A])
       /\ length route <= 3.
Proof.
  split; [exact bounded_always_5|].
  exact (optimize_always_returns (always (Duration 5))
           [place_B; place_unlocated; place_A] bounded_always_5).
Defined.

Lemma in_enumerate_from {A : Type} (l : list A) :
  forall (a i : nat) (x : A),
    In (i, x) (combine (seq a (length l)) l) ->
    a <= i /\ nth_error l (i - a) = Some x.
Proof.
  induction l as [|y l IH]; intros a i x; simpl; [contradiction|].
  intros [[= <- <-]|Hin].
  - rewrite Nat.sub_diag. auto.
  - apply IH in Hin as [Hle Hn].
    replace (i - a) with (S (i - S a)) by lia. simpl. split; [lia|exact Hn].
Qed.

Lemma schedule_tasks_endpoints (valid_places : list place) (t : task) :
  In t (schedule_tasks valid_places) ->
  nth_error valid_places (fst (task_key t)) = Some (task_origin t)
  /\ nth_error valid_places (snd (task_key t)) = Some (task_destination t).
Proof.
  unfold schedule_tasks, enumerate. intros Hin.
  apply in_flat_map in Hin as [[i p1] [Hi Hin]].
  apply in_flat_map in Hin as [[j p2] [Hj Hin]].
  apply in_enumerate_from in Hi as [_ Hi], Hj as [_ Hj].
  rewrite Nat.sub_0_r in Hi, Hj.
  destruct (negb (i =? j) && negb (dict_mem (j, i) [])); [|contradiction].
  destruct Hin as [<-|[]]. simpl. auto.
Qed.

(** X2: With two valid places or more, the lookups issued are one for every
    ordered pair of distinct indices [(i, j)], none twice,
    [N * (N - 1)] in all, and the lookup of the pair [(i, j)] goes from the
    valid place [i] to the valid place [j]. *)
Theorem lookups_are_the_ordered_pairs
    (get_travel_time : nat -> endpoint -> endpoint -> provider_outcome)
    (places : list place) :
  2 <= length (valid_places_of places) ->
  let tasks := fst (_optimize_travel_path get_travel_time places) in
  let n := length (valid_places_of places) in
  (forall i j, In (i, j) (map task_key tasks) <-> i <> j /\ i < n /\ j < n)
  /\ NoDup (map task_key tasks)
  /\ length tasks = n * (n - 1)
  /\ (forall t, In t tasks ->
        nth_error (valid_places_of places) (fst (task_key t))
        = Some (task_origin t)
        /\ nth_error (valid_places_of places) (snd (task_key t))
           = Some (task_destination t)).
Proof.
  intros H. rewrite (optimize_full get_travel_time places H). cbn [fst].
  cbv zeta. rewrite schedule_tasks_keys.
  split; [|split; [|split]].
  - intros i j. rewrite filter_In, in_index_pairs. unfold off_diagonal.
    simpl. rewrite negb_true_iff, Nat.eqb_neq. tauto.
  - apply NoDup_filter, sorted_NoDup, sorted_index_pairs.
  - apply length_schedule_tasks.
  - apply schedule_tasks_endpoints.
Qed.

Lemma lookups_are_the_ordered_pairs_witness :
  2 <= length (valid_places_of [place_A; place_unlocated; place_B])
  /\ length (fst (_optimize_travel_path (always NoData)
                    [place_A; place_unlocated; place_B])) = 2 * (2 - 1).
Proof.
  assert (H : 2 <= length (valid_places_of
                             [place_A; place_unlocated; place_B]))
    by (simpl; lia).
  split; [exact H|].
  exact (proj1 (proj2 (proj2
    (lookups_are_the_ordered_pairs (always NoData)
       [place_A; place_unlocated; place_B] H)))).
Defined.

(** ** The lookups from the start place *)

Lemma filter_all_true {A : Type} (f : A -> bool) (l : list A) :
  (forall x, In x l -> f x = true) -> filter f l = l.
Proof.
  induction l as [|a l IH]; simpl; intros H; [reflexivity|].
  rewrite (H a) by auto. rewrite IH by auto. reflexivity.
Qed.

Lemma upper_pairs_first_row (m : nat) :
  exists rest, upper_pairs (S m) = map (pair 0) (seq 1 m) ++ rest.
Proof.
  unfold upper_pairs, index_pairs.
  change (seq 0 (S m)) with (0 :: seq 1 m).
  cbn [flat_map map]. rewrite filter_app.
  cbn [filter upper fst snd Nat.ltb Nat.leb].
  rewrite filter_all_true.
  - eexists. reflexivity.
  - intros k Hk. apply in_map_iff in Hk as [j [<- Hj]].
    apply in_seq in Hj. unfold upper. simpl. apply Nat.ltb_lt. lia.
Qed.

Lemma nth_error_upper_pairs_first_row (n j : nat) :
  1 <= j -> j < n -> nth_error (upper_pairs n) (j - 1) = Some (0, j).
Proof.
  intros H1 Hn. destruct n as [|m]; [lia|].
  destruct (upper_pairs_first_row m) as [rest ->].
  rewrite nth_error_app1 by (rewrite length_map, length_seq; lia).
  rewrite nth_error_map, nth_error_seq.
  replace (j - 1 <? m) with true by (symmetry; apply Nat.ltb_lt; lia).
  simpl. do 2 f_equal. lia.
Qed.

Lemma first_row_tasks (p0 : place) (ps : list place) :
  forall a, 1 <= a ->
    flat_map (fun '(j, place2) =>
                if negb (0 =? j) && negb (dict_mem (j, 0) [])
                then [mkTask (0, j) p0 place2] else [])
             (combine (seq a (length ps)) ps)
    = map (fun jp => mkTask (0, fst jp) p0 (snd jp))
          (combine (seq a (length ps)) ps).
Proof.
  induction ps as [|p ps IH]; intros a Ha; simpl; [reflexivity|].
  destruct a as [|a]; [lia|]. simpl. rewrite IH by lia. reflexivity.
Qed.

Lemma schedule_tasks_first_row (p0 : place) (ps : list place) :
  exists rest,
    schedule_tasks (p0 :: ps)
    = map (fun jp => mkTask (0, fst jp) p0 (snd jp))
          (combine (seq 1 (length ps)) ps) ++ rest.
Proof.
  unfold schedule_tasks, enumerate.
  change (length (p0 :: ps)) with (S (length ps)).
  change (seq 0 (S (length ps))) with (0 :: seq 1 (length ps)).
  cbn [combine flat_map]. cbn [Nat.eqb negb andb app].
  rewrite first_row_tasks by lia.
  eexists. reflexivity.
Qed.

Lemma nth_error_enumerate_from {A : Type} (l : list A) :
  forall (a k : nat) (x : A),
    nth_error l k = Some x ->
    nth_error (combine (seq a (length l)) l) k = Some (a + k, x).
Proof.
  induction l as [|y l IH]; intros a [|k] x; simpl; try discriminate.
  - intros [= ->]. rewrite Nat.add_0_r. reflexivity.
  - intros H. rewrite (IH (S a) k x H). do 2 f_equal. lia.
Qed.

Lemma nth_error_schedule_tasks_first_row (valid_places : list place)
    (p0 pj : place) (j : nat) :
  nth_error valid_places 0 = Some p0 ->
  1 <= j ->
  nth_error valid_places j = Some pj ->
  nth_error (schedule_tasks valid_places) (j - 1) = Some (mkTask (0, j) p0 pj).
Proof.
  destruct valid_places as [|p ps]; simpl; [discriminate|].
  intros [= ->] Hj Hpj. destruct j as [|j]; [lia|]. simpl in Hpj.
  destruct (schedule_tasks_first_row p0 ps) as [rest ->].
  assert (Hlt : j < length ps) by (apply nth_error_Some; congruence).
  replace (S j - 1) with j by lia.
  rewrite nth_error_app1
    by (rewrite length_map, length_combine, length_seq; lia).
  rewrite nth_error_map, (nth_error_enumerate_from ps 1 j pj Hpj).
  reflexivity.
Qed.

Lemma nth_error_lookup_values
    (get_travel_time : nat -> endpoint -> endpoint -> provider_outcome)
    (tasks : list task) :
  forall (k0 k : nat) (t : task),
    nth_error tasks k = Some t ->
    nth_error (lookup_values get_travel_time k0 tasks) k
    = Some (lookup_value
              (get_travel_time (k0 + k) (endpoint_of (task_origin t))
                               (endpoint_of (task_destination t)))).
Proof.
  induction tasks as [|t0 tasks IH]; intros k0 [|k] t; simpl;
    try discriminate.
  - intros [= ->]. rewrite Nat.add_0_r. reflexivity.
  - intros H. rewrite (IH (S k0) k t H). do 3 f_equal. lia.
Qed.

Lemma dict_get_combine_nth (ks : list key) :
  forall (vs : list Q) (n : nat) (k : key) (v : Q),
    NoDup ks ->
    nth_error ks n = Some k -> nth_error vs n = Some v ->
    dict_get k (combine ks vs) = Some v.
Proof.
  induction ks as [|k0 ks IH]; intros [|v0 vs] [|n] k v Hnd; simpl;
    try discriminate.
  - intros [= ->] [= ->]. rewrite key_eqb_refl. reflexivity.
  - intros Hk Hv. inversion Hnd as [|? ? Hnotin Hnd']; subst.
    destruct (key_eqb k k0) eqn:E.
    + apply key_eqb_eq in E. subst. apply nth_error_In in Hk. tauto.
    + exact (IH vs n k v Hnd' Hk Hv).
Qed.

(** X4: The lookup number [j - 1] goes from the valid place 0 to the valid
    place [j], and its result is what the dict records for the pair
    [(0, j)]: the times from the start place are stored under their own
    pairs, and the greedy selection reads them from the current place 0
    (with a failed one replaced by [avg_travel_time]). *)
Theorem start_row_records_its_own_lookups
    (get_travel_time : nat -> endpoint -> endpoint -> provider_outcome)
    (valid_places : list place) (p0 pj : place) (j : nat) :
  nth_error valid_places 0 = Some p0 ->
  1 <= j ->
  nth_error valid_places j = Some pj ->
  let v := lookup_value
             (get_travel_time (j - 1) (endpoint_of p0) (endpoint_of pj)) in
  nth_error (schedule_tasks valid_places) (j - 1) = Some (mkTask (0, j) p0 pj)
  /\ exists (recorded : list (key * Q)) (task_idx : nat)
            (travel_times : list (key * Q)),
       fill_matrix valid_places
         (gather get_travel_time (schedule_tasks valid_places))
       = Value (recorded, task_idx)
       /\ dict_get (0, j) recorded = Some v
       /\ travel_matrix get_travel_time valid_places = Value travel_times
       /\ travel_key travel_times 0 j
          = Fin (if Qeq_bool v sentinel then avg_travel_time recorded else v).
Proof.
  intros H0 Hj Hpj v.
  pose proof (nth_error_schedule_tasks_first_row _ _ _ _ H0 Hj Hpj) as Ht.
  split; [exact Ht|].
  assert (Hjn : j < length valid_places) by (apply nth_error_Some; congruence).
  assert (Hget : dict_get (0, j) (recorded_matrix get_travel_time valid_places)
                 = Some v).
  { unfold recorded_matrix.
    apply dict_get_combine_nth with (n := j - 1).
    - apply NoDup_upper_pairs.
    - apply nth_error_upper_pairs_first_row; assumption.
    - rewrite (nth_error_lookup_values get_travel_time _ 0 (j - 1) _ Ht).
      reflexivity. }
  exists (recorded_matrix get_travel_time valid_places),
         (length (upper_pairs (length valid_places))),
         (map (replace_failed
                 (avg_travel_time
                    (recorded_matrix get_travel_time valid_places)))
              (recorded_matrix get_travel_time valid_places)).
  split; [apply fill_matrix_gather|]. split; [exact Hget|].
  split; [apply travel_matrix_closed|].
  unfold travel_key. rewrite dict_get_replace_failed, Hget. reflexivity.
Qed.

Lemma start_row_records_its_own_lookups_witness :
  nth_error [place_A; place_B; place_C] 0 = Some place_A
  /\ nth_error [place_A; place_B; place_C] 2 = Some place_C
  /\ nth_error (schedule_tasks [place_A; place_B; place_C]) (2 - 1)
     = Some (mkTask (0, 2) place_A place_C).
Proof.
  assert (H0 : nth_error [place_A; place_B; place_C] 0 = Some place_A)
    by reflexivity.
  assert (H2 : nth_error [place_A; place_B; place_C] 2 = Some place_C)
    by reflexivity.
  assert (H1 : 1 <= 2) by lia.
  split; [exact H0|]. split; [exact H2|].
  exact (proj1 (start_row_records_its_own_lookups
                  (timetable directed_times)
                  [place_A; place_B; place_C] place_A place_C 2 H0 H1 H2)).
Defined.

(** ** The first hop and the direction of the later hops *)

Lemma seq_split_order (l1 l2 : list nat) (y : nat) :
  forall a m, seq a m = l1 ++ y :: l2 ->
              (forall x, In x l1 -> x < y) /\ (forall x, In x l2 -> y < x).
Proof.
  induction l1 as [|z l1 IH]; intros a m Heq.
  - destruct m as [|m]; simpl in Heq; [discriminate|].
    injection Heq as -> <-. split; [intros x []|].
    intros x Hx. apply in_seq in Hx. lia.
  - destruct m as [|m]; simpl in Heq; [discriminate|].
    injection Heq as <- Heq.
    destruct (IH _ _ Heq) as [H1 H2]. split; [|exact H2].
    intros x [<-|Hx]; [|auto].
    assert (Hy : In y (seq (S a) m)) by (rewrite Heq; apply in_elt).
    apply in_seq in Hy. lia.
Qed.

Lemma greedy_route_first_hop (valid_places : list place)
    (travel_times : list (key * Q)) :
  2 <= length valid_places ->
  exists (p0 p1 : place) (next_place : nat) (rest : list place),
    nth_error valid_places 0 = Some p0
    /\ py_min (travel_key travel_times 0) (seq 1 (length valid_places - 1))
       = Value next_place
    /\ nth_error valid_places next_place = Some p1
    /\ greedy_route valid_places travel_times = Value (p0 :: p1 :: rest).
Proof.
  intros Hn. unfold greedy_route.
  destruct (nth_error valid_places 0) as [p0|] eqn:Hp0;
    [|apply nth_error_None in Hp0; lia].
  unfold index. rewrite Hp0. cbn [bind].
  assert (Hseq : seq 0 (length valid_places)
                 = 0 :: seq 1 (length valid_places - 1)).
  { revert Hn. destruct (length valid_places); [lia|].
    intros _. simpl. rewrite Nat.sub_0_r. reflexivity. }
  rewrite Hseq. cbn [set_remove Nat.eqb bind]. rewrite length_seq.
  assert (Hbound : forall x, In x (seq 1 (length valid_places - 1)) ->
                             x < length valid_places).
  { intros x Hx. apply in_seq in Hx. lia. }
  destruct (length valid_places - 1) as [|f] eqn:Hf; [lia|].
  cbn [seq greedy_loop py_min bind].
  set (next_place := min_from (travel_key travel_times 0) 1 (seq 2 f)).
  assert (Hnext : In next_place (1 :: seq 2 f)) by apply min_from_In.
  destruct (nth_error valid_places next_place) as [p1|] eqn:Hp1;
    [|apply nth_error_None in Hp1; specialize (Hbound _ Hnext); lia].
  unfold index. rewrite Hp1. cbn [bind].
  destruct (set_remove_In _ _ Hnext) as [s' [-> [Hperm Hl]]]. cbn [bind].
  destruct (greedy_loop_visits valid_places travel_times f ([p0] ++ [p1]) s'
              next_place) as [added [order [-> _]]].
  - simpl in Hl. rewrite length_seq in Hl. lia.
  - intros x Hx. apply Hbound.
    apply (Permutation_in _ (Permutation_sym Hperm)). right. exact Hx.
  - exists p0, p1, next_place, added. auto.
Qed.

(** X5: With two valid places or more, the route starts with the valid
    place 0, and its second place is the first among the other valid
    places whose travel time from place 0, as the dict holds it, is the
    smallest. *)
Theorem first_hop_is_nearest
    (get_travel_time : nat -> endpoint -> endpoint -> provider_outcome)
    (places : list place) :
  2 <= length (valid_places_of places) ->
  exists (travel_times : list (key * Q)) (route : list place)
         (next_place : nat),
    travel_matrix get_travel_time (valid_places_of places) = Value travel_times
    /\ snd (_optimize_travel_path get_travel_time places) = Value route
    /\ 1 <= next_place < length (valid_places_of places)
    /\ nth_error route 0 = nth_error (valid_places_of places) 0
    /\ nth_error route 1 = nth_error (valid_places_of places) next_place
    /\ (forall x, 1 <= x -> x < length (valid_places_of places) ->
          ext_ltb (travel_key travel_times 0 x)
                  (travel_key travel_times 0 next_place) = false)
    /\ (forall x, 1 <= x -> x < next_place ->
          ext_ltb (travel_key travel_times 0 next_place)
                  (travel_key travel_times 0 x) = true).
Proof.
  intros Hn. rewrite (optimize_full get_travel_time places Hn). cbn [snd].
  rewrite travel_matrix_closed. cbn [bind].
  set (tt := map _ _).
  destruct (greedy_route_first_hop (valid_places_of places) tt Hn)
    as [p0 [p1 [next [rest [Hp0 [Hmin [Hp1 Hrun]]]]]]].
  destruct (py_min_first_least _ _ _ Hmin) as [l1 [l2 [Hsplit [Hbefore _]]]].
  destruct (seq_split_order _ _ _ _ _ Hsplit) as [Hl1 Hl2].
  assert (Hin : In next (seq 1 (length (valid_places_of places) - 1)))
    by (rewrite Hsplit; apply in_elt).
  apply in_seq in Hin.
  exists tt, (p0 :: p1 :: rest), next.
  split; [reflexivity|]. split; [exact Hrun|]. split; [lia|].
  split; [simpl; auto|]. split; [simpl; auto|]. split.
  - intros x H1 Hx. apply (py_min_least _ _ _ _ Hmin). apply in_seq. lia.
  - intros x H1 Hx. apply Hbefore.
    assert (Hxin : In x (l1 ++ next :: l2))
      by (rewrite <- Hsplit; apply in_seq; lia).
    apply in_app_or in Hxin as [Hxin|[->|Hxin]]; [exact Hxin|lia|].
    specialize (Hl2 _ Hxin). lia.
Qed.

Lemma first_hop_is_nearest_witness :
  2 <= length (valid_places_of [place_A; place_B; place_C; place_D])
  /\ exists (travel_times : list (key * Q)) (route : list place)
            (next_place : nat),
       travel_matrix (timetable four_places_times)
         (valid_places_of [place_A; place_B; place_C; place_D])
       = Value travel_times
       /\ snd (_optimize_travel_path (timetable four_places_times)
                 [place_A; place_B; place_C; place_D]) = Value route
       /\ 1 <= next_place
          < length (valid_places_of [place_A; place_B; place_C; place_D])
       /\ nth_error route 0
          = nth_error (valid_places_of [place_A; place_B; place_C; place_D]) 0
       /\ nth_error route 1
          = nth_error (valid_places_of [place_A; place_B; place_C; place_D])
                      next_place
       /\ (forall x, 1 <= x ->
             x < length (valid_places_of
                           [place_A; place_B; place_C; place_D]) ->
             ext_ltb (travel_key travel_times 0 x)
                     (travel_key travel_times 0 next_place) = false)
       /\ (forall x, 1 <= x -> x < next_place ->
             ext_ltb (travel_key travel_times 0 next_place)
                     (travel_key travel_times 0 x) = true).
Proof.
  assert (H : 2 <= length (valid_places_of
                             [place_A; place_B; place_C; place_D]))
    by (simpl; lia).
  split; [exact H|].
  exact (first_hop_is_nearest (timetable four_places_times)
           [place_A; place_B; place_C; place_D] H).
Defined.

Lemma travel_key_by_direction (travel_times : list (key * Q)) (n : nat) :
  keys travel_times = upper_pairs n ->
  forall current x,
    (x < current -> travel_key travel_times current x = Inf)
    /\ (current < x -> x < n ->
        exists t, travel_key travel_times current x = Fin t).
Proof.
  intros Hkeys current x. unfold travel_key. split.
  - intros Hx.
    replace (dict_get (current, x) travel_times) with (@None Q);
      [reflexivity|].
    symmetry. apply dict_get_None. rewrite Hkeys, in_upper_pairs. lia.
  - intros Hc Hx.
    destruct (dict_get_Some_key (current, x) travel_times) as [t Ht].
    + rewrite Hkeys. apply in_upper_pairs. lia.
    + exists t. rewrite Ht. reflexivity.
Qed.

Lemma timetable_find_In (origin destination : string)
    (table : list (string * string * Q)) (t : Q) :
  timetable_find origin destination table = Duration t ->
  In t (map snd table).
Proof.
  induction table as [|[[o d] t0] table IH]; simpl; [discriminate|].
  destruct (String.eqb origin o && String.eqb destination d).
  - intros [= <-]. auto.
  - auto.
Qed.

Lemma bounded_four_places_times :
  bounded_answers (timetable four_places_times).
Proof.
  intros k origin destination t H. unfold timetable in H.
  apply timetable_find_In in H. simpl in H.
  repeat (destruct H as [<-|H]; [split; unfold Qle; simpl; lia|]).
  contradiction.
Qed.

(** X6: One round of the greedy selection on the dict the optimizer
    builds from answers within [travel_time_bound] (every stored time is
    then a finite number, below the infinity of a missing key): as long
    as an unvisited index greater than the current one is left, the
    selection moves to a greater index, however small the stored travel
    times to the smaller indices are; it moves to a smaller index only
    when no greater index is left. *)
Theorem greedy_step_prefers_greater_indices
    (get_travel_time : nat -> endpoint -> endpoint -> provider_outcome)
    (valid_places : list place) (travel_times : list (key * Q))
    (current next_place : nat) (unvisited : list nat) :
  bounded_answers get_travel_time ->
  travel_matrix get_travel_time valid_places = Value travel_times ->
  (forall x, In x unvisited -> x < length valid_places /\ x <> current) ->
  py_min (travel_key travel_times current) unvisited = Value next_place ->
  (exists x, In x unvisited /\ current < x) ->
  current < next_place.
Proof.
  intros _ Htt Hun Hmin [x [Hx Hcx]].
  rewrite travel_matrix_closed in Htt. injection Htt as <-.
  assert (Hkeys : keys (map (replace_failed
                               (avg_travel_time
                                  (recorded_matrix get_travel_time
                                     valid_places)))
                            (recorded_matrix get_travel_time valid_places))
                  = upper_pairs (length valid_places))
    by (rewrite keys_replace_failed; apply keys_recorded_matrix).
  pose proof (travel_key_by_direction _ _ Hkeys) as Hdir.
  assert (Hnext : In next_place unvisited).
  { destruct (py_min_first_least _ _ _ Hmin) as [l1 [l2 [-> _]]].
    apply in_elt. }
  destruct (Nat.lt_trichotomy current next_place) as [Hlt|[Heq|Hgt]];
    [exact Hlt | destruct (Hun _ Hnext); congruence |].
  pose proof (py_min_least _ _ _ _ Hmin Hx) as Hleast.
  destruct (proj2 (Hdir current x) Hcx (proj1 (Hun _ Hx))) as [t Ht].
  rewrite Ht, (proj1 (Hdir current next_place) Hgt) in Hleast.
  simpl in Hleast. discriminate.
Qed.

Lemma greedy_step_prefers_greater_indices_witness :
  bounded_answers (timetable four_places_times)
  /\ travel_matrix (timetable four_places_times)
       [place_A; place_B; place_C; place_D]
     = Value [((0, 1), 10%Q); ((0, 2), 1%Q); ((0, 3), 10%Q);
              ((1, 2), 10%Q); ((1, 3), 5%Q); ((2, 3), 50%Q)]
  /\ py_min (travel_key [((0, 1), 10%Q); ((0, 2), 1%Q); ((0, 3), 10%Q);
                         ((1, 2), 10%Q); ((1, 3), 5%Q); ((2, 3), 50%Q)] 2)
            [1; 3] = Value 3
  /\ 2 < 3.
Proof.
  assert (Htt : travel_matrix (timetable four_places_times)
                  [place_A; place_B; place_C; place_D]
                = Value [((0, 1), 10%Q); ((0, 2), 1%Q); ((0, 3), 10%Q);
                         ((1, 2), 10%Q); ((1, 3), 5%Q); ((2, 3), 50%Q)])
    by reflexivity.
  assert (Hmin : py_min (travel_key
                           [((0, 1), 10%Q); ((0, 2), 1%Q); ((0, 3), 10%Q);
                            ((1, 2), 10%Q); ((1, 3), 5%Q); ((2, 3), 50%Q)] 2)
                        [1; 3] = Value 3)
    by reflexivity.
  split; [exact bounded_four_places_times|].
  split; [exact Htt|]. split; [exact Hmin|].
  apply (greedy_step_prefers_greater_indices (timetable four_places_times)
           [place_A; place_B; place_C; place_D] _ 2 3 [1; 3]
           bounded_four_places_times Htt).
  - intros x [<-|[<-|[]]]; simpl; split; lia.
  - exact Hmin.
  - exists 3. simpl. split; [auto | lia].
Defined.

(** ** The entry of a pair and the lookup of the same rank *)

(** X3: The entry of the [k]-th pair [(i, j)], [i < j], in row order is the
    result of the [k]-th lookup in the order of issue, whichever pair that
    lookup was made for. *)
Theorem entry_takes_the_result_of_its_rank
    (get_travel_time : nat -> endpoint -> endpoint -> provider_outcome)
    (valid_places : list place) (k : nat) (pair_k : key) (t : task) :
  nth_error (upper_pairs (length valid_places)) k = Some pair_k ->
  nth_error (schedule_tasks valid_places) k = Some t ->
  exists (recorded : list (key * Q)) (task_idx : nat),
    fill_matrix valid_places
      (gather get_travel_time (schedule_tasks valid_places))
    = Value (recorded, task_idx)
    /\ dict_get pair_k recorded
       = Some (lookup_value
                 (get_travel_time k (endpoint_of (task_origin t))
                                    (endpoint_of (task_destination t)))).
Proof.
  intros Hk Ht.
  exists (recorded_matrix get_travel_time valid_places),
         (length (upper_pairs (length valid_places))).
  split; [apply fill_matrix_gather|].
  unfold recorded_matrix. apply dict_get_combine_nth with (n := k).
  - apply NoDup_upper_pairs.
  - exact Hk.
  - rewrite (nth_error_lookup_values get_travel_time _ 0 k t Ht). reflexivity.
Qed.

Lemma entry_takes_the_result_of_its_rank_witness :
  nth_error (upper_pairs (length [place_A; place_B; place_C])) 2 = Some (1, 2)
  /\ nth_error (schedule_tasks [place_A; place_B; place_C]) 2
     = Some (mkTask (1, 0) place_B place_A)
  /\ exists (recorded : list (key * Q)) (task_idx : nat),
       fill_matrix [place_A; place_B; place_C]
         (gather (timetable directed_times)
                 (schedule_tasks [place_A; place_B; place_C]))
       = Value (recorded, task_idx)
       /\ dict_get (1, 2) recorded
          = Some (lookup_value
                    (timetable directed_times 2
                       (endpoint_of (task_origin
                                       (mkTask (1, 0) place_B place_A)))
                       (endpoint_of (task_destination
                                       (mkTask (1, 0) place_B place_A))))).
Proof.
  assert (H1 : nth_error (upper_pairs (length [place_A; place_B; place_C])) 2
               = Some (1, 2)) by reflexivity.
  assert (H2 : nth_error (schedule_tasks [place_A; place_B; place_C]) 2
               = Some (mkTask (1, 0) place_B place_A)) by reflexivity.
  split; [exact H1|]. split; [exact H2|].
  exact (entry_takes_the_result_of_its_rank (timetable directed_times)
           [place_A; place_B; place_C] 2 (1, 2)
           (mkTask (1, 0) place_B place_A) H1 H2).
Defined.

(** ** Area and district codes *)

Lemma str_lookup_In {V : Type} (k : string) (v : V) (d : list (string * V)) :
  str_lookup k d = Some v -> In (k, v) d.
Proof.
  induction d as [|[k' v'] d IH]; simpl; [discriminate|].
  destruct (String.eqb k k') eqn:E.
  - apply String.eqb_eq in E. intros [= ->]. subst. auto.
  - auto.
Qed.

Lemma str_lookup_value {V : Type} (k : string) (v : V)
    (d : list (string * V)) :
  str_lookup k d = Some v -> In v (map snd d).
Proof.
  intros H. apply str_lookup_In in H.
  apply in_map_iff. exists (k, v). auto.
Qed.

Lemma code_lookup_In {V : Type} (k : Z) (v : V) (d : list (Z * V)) :
  code_lookup k d = Some v -> In (k, v) d.
Proof.
  induction d as [|[k' v'] d IH]; simpl; [discriminate|].
  destruct (Z.eqb k k') eqn:E.
  - apply Z.eqb_eq in E. intros [= ->]. subst. auto.
  - auto.
Qed.

(** Different keys of a dict whose values are all different have
    different values. *)
Lemma str_lookup_inj {V : Type} (k1 k2 : string) (v : V)
    (d : list (string * V)) :
  NoDup (map snd d) ->
  str_lookup k1 d = Some v -> str_lookup k2 d = Some v -> k1 = k2.
Proof.
  induction d as [|[k' v'] d IH]; simpl; [discriminate|].
  intros Hnd H1 H2. inversion Hnd as [|? ? Hnotin Hnd']; subst.
  destruct (String.eqb k1 k') eqn:E1, (String.eqb k2 k') eqn:E2.
  - apply String.eqb_eq in E1, E2. congruence.
  - injection H1 as ->. apply str_lookup_value in H2. tauto.
  - injection H2 as ->. apply str_lookup_value in H1. tauto.
  - exact (IH Hnd' H1 H2).
Qed.

Lemma existsb_Zeqb (z : Z) (l : list Z) :
  existsb (Z.eqb z) l = true <-> In z l.
Proof.
  rewrite existsb_exists. split.
  - intros [x [Hx E]]. apply Z.eqb_eq in E. subst. exact Hx.
  - intros H. exists z. split; [exact H | apply Z.eqb_refl].
Qed.

Lemma area_codes :
  map snd AREA_CODE_MAP
  = [1; 2; 3; 4; 5; 6; 7; 8; 31; 32; 33; 34; 35; 36; 37; 38; 39]%Z.
Proof. reflexivity. Qed.

Lemma get_area_code_In (region : pyval) (c : Z) :
  get_area_code region = Some c -> In c (map snd AREA_CODE_MAP).
Proof.
  destruct region as [|z|q|s]; unfold get_area_code; try discriminate.
  - destruct (existsb (Z.eqb z) (map snd AREA_CODE_MAP)) eqn:E;
      [|discriminate].
    intros [= <-]. apply existsb_Zeqb. exact E.
  - apply str_lookup_value.
Qed.

Lemma get_area_code_of_code (c : Z) :
  In c (map snd AREA_CODE_MAP) -> get_area_code (PyInt c) = Some c.
Proof.
  intros H. apply existsb_Zeqb in H. unfold get_area_code.
  rewrite H. reflexivity.
Qed.

Lemma area_code_nonzero (c : Z) :
  In c (map snd AREA_CODE_MAP) -> Z.eqb c 0 = false.
Proof.
  rewrite area_codes. simpl. intros H. apply Z.eqb_neq.
  intuition lia.
Qed.

(** X7: Every code that [get_area_code] returns is one of the seventeen area
    codes, and asked for that code it returns the code again. *)
Theorem area_code_round_trip (region : pyval) (c : Z) :
  get_area_code region = Some c ->
  In c [1; 2; 3; 4; 5; 6; 7; 8; 31; 32; 33; 34; 35; 36; 37; 38; 39]%Z
  /\ get_area_code (PyInt c) = Some c.
Proof.
  intros H. apply get_area_code_In in H. split.
  - rewrite <- area_codes. exact H.
  - apply get_area_code_of_code. exact H.
Qed.

Lemma area_code_round_trip_witness :
  get_area_code (PyStr " 경기 ") = Some 31%Z
  /\ In 31%Z
        [1; 2; 3; 4; 5; 6; 7; 8; 31; 32; 33; 34; 35; 36; 37; 38; 39]%Z
  /\ get_area_code (PyInt 31) = Some 31%Z.
Proof.
  assert (H : get_area_code (PyStr " 경기 ") = Some 31%Z) by reflexivity.
  split; [exact H|].
  exact (area_code_round_trip (PyStr " 경기 ") 31 H).
Defined.

(** X8: A region given by its name and the same region given by its code get
    the same district code, the same validation and the same codes in
    [create_plan]. *)
Theorem region_name_and_code_agree (region district : pyval) (c : Z) :
  get_area_code region = Some c ->
  get_sigungu_code region district = get_sigungu_code (PyInt c) district
  /\ validate_location region district = validate_location (PyInt c) district
  /\ create_plan_codes region district = create_plan_codes (PyInt c) district.
Proof.
  intros H.
  pose proof (get_area_code_of_code c (get_area_code_In _ _ H)) as Hc.
  assert (Hs : get_sigungu_code region district
               = get_sigungu_code (PyInt c) district).
  { unfold get_sigungu_code. rewrite H, Hc. reflexivity. }
  split; [exact Hs|]. split.
  - unfold validate_location. rewrite Hs, H, Hc. reflexivity.
  - unfold create_plan_codes. rewrite Hs, H, Hc. reflexivity.
Qed.

Lemma region_name_and_code_agree_witness :
  get_area_code (PyStr "강원") = Some 32%Z
  /\ get_sigungu_code (PyStr "강원") (PyStr "춘천시")
     = get_sigungu_code (PyInt 32) (PyStr "춘천시")
  /\ validate_location (PyStr "강원") (PyStr "춘천시")
     = validate_location (PyInt 32) (PyStr "춘천시")
  /\ create_plan_codes (PyStr "강원") (PyStr "춘천시")
     = create_plan_codes (PyInt 32) (PyStr "춘천시").
Proof.
  assert (H : get_area_code (PyStr "강원") = Some 32%Z) by reflexivity.
  split; [exact H|].
  exact (region_name_and_code_agree (PyStr "강원") (PyStr "춘천시") 32 H).
Defined.

Lemma get_sigungu_code_Some (region district : pyval) (s : Z) :
  get_sigungu_code region district = Some s ->
  exists (c : Z) (districts : list (string * Z)) (ds : string),
    get_area_code region = Some c
    /\ without_districts c = false
    /\ code_lookup c SIGUNGU_CODE_MAP = Some districts
    /\ district = PyStr ds
    /\ truthy district = true
    /\ str_lookup (py_strip ds) districts = Some s.
Proof.
  unfold get_sigungu_code.
  destruct (truthy district) eqn:Ht; [|discriminate]. cbn [negb].
  destruct (get_area_code region) as [c|]; [|discriminate].
  destruct (Z.eqb c 0); [discriminate|].
  destruct (without_districts c) eqn:Hw; [discriminate|].
  destruct (code_lookup c SIGUNGU_CODE_MAP) as [districts|] eqn:Hd;
    [|discriminate].
  destruct district as [|z|q|ds]; try discriminate.
  intros H. exists c, districts, ds. auto 10.
Qed.

Lemma sigungu_codes_positive (c : Z) (districts : list (string * Z))
    (k : string) (s : Z) :
  In (c, districts) SIGUNGU_CODE_MAP -> In (k, s) districts -> (0 < s)%Z.
Proof.
  assert (H : forallb (fun t => forallb (fun kv => (0 <? snd kv)%Z) (snd t))
                      SIGUNGU_CODE_MAP = true) by reflexivity.
  intros Hc Hk. rewrite forallb_forall in H. specialize (H _ Hc).
  cbn [snd] in H. rewrite forallb_forall in H. specialize (H _ Hk).
  apply Z.ltb_lt in H. exact H.
Qed.

Lemma nodup_fixed_NoDup (l : list Z) : nodup Z.eq_dec l = l -> NoDup l.
Proof.
  intros H. rewrite <- H. apply NoDup_nodup.
Qed.

Lemma area_codes_distinct : NoDup (map snd AREA_CODE_MAP).
Proof. apply nodup_fixed_NoDup. vm_compute. reflexivity. Qed.

Lemma sigungu_codes_distinct (c : Z) (districts : list (string * Z)) :
  In (c, districts) SIGUNGU_CODE_MAP -> NoDup (map snd districts).
Proof.
  assert (H : Forall (fun t => nodup Z.eq_dec (map snd (snd t))
                               = map snd (snd t)) SIGUNGU_CODE_MAP)
    by (repeat constructor).
  intros Hc. rewrite Forall_forall in H. specialize (H _ Hc).
  apply nodup_fixed_NoDup. exact H.
Qed.

Lemma get_sigungu_code_positive (region district : pyval) (s : Z) :
  get_sigungu_code region district = Some s -> (0 < s)%Z.
Proof.
  intros H.
  destruct (get_sigungu_code_Some _ _ _ H)
    as [c [districts [ds [_ [_ [Hd [_ [_ Hs]]]]]]]].
  apply code_lookup_In in Hd. apply str_lookup_In in Hs.
  exact (sigungu_codes_positive _ _ _ _ Hd Hs).
Qed.

(** X9: [validate_location] accepts exactly a known region without a
    district, and a known region with a district that [get_sigungu_code]
    finds. *)
Theorem validate_location_iff (region district : pyval) :
  validate_location region district = true
  <-> exists c, get_area_code region = Some c
                /\ (truthy district = false
                    \/ exists s, get_sigungu_code region district = Some s).
Proof.
  unfold validate_location. split.
  - destruct (get_area_code region) as [c|] eqn:Hc; [|discriminate].
    destruct (Z.eqb c 0); [discriminate|].
    destruct (truthy district); [|intros _; exists c; auto].
    destruct (without_districts c); [discriminate|].
    destruct (get_sigungu_code region district) as [s|]; [|discriminate].
    intros _. exists c. split; [reflexivity|]. right. exists s. reflexivity.
  - intros [c [Hc Hd]]. rewrite Hc.
    rewrite (area_code_nonzero c (get_area_code_In _ _ Hc)).
    destruct Hd as [Hd|[s Hs]].
    + rewrite Hd. reflexivity.
    + pose proof (get_sigungu_code_positive _ _ _ Hs) as Hpos.
      destruct (get_sigungu_code_Some _ _ _ Hs)
        as [c' [districts [ds [Hc' [Hw [_ [_ [Ht _]]]]]]]].
      rewrite Hc in Hc'. injection Hc' as <-.
      rewrite Ht, Hw, Hs. simpl. apply negb_true_iff, Z.eqb_neq. lia.
Qed.

(** X10: For a region whose area code is one of 1..8 and 39 no district code
    is ever returned, the validation accepts it only without a district,
    and [create_plan] goes on without a district code. *)
Theorem regions_without_districts (region district : pyval) (c : Z) :
  get_area_code region = Some c ->
  In c [1; 2; 3; 4; 5; 6; 7; 8; 39]%Z ->
  get_sigungu_code region district = None
  /\ validate_location region district = negb (truthy district)
  /\ create_plan_codes region district = Some (c, None).
Proof.
  intros Hc Hin.
  assert (Hw : without_districts c = true)
    by (apply existsb_Zeqb; exact Hin).
  assert (Hs : get_sigungu_code region district = None).
  { unfold get_sigungu_code. rewrite Hc, Hw.
    destruct (truthy district), (Z.eqb c 0); reflexivity. }
  split; [exact Hs|]. split.
  - unfold validate_location.
    rewrite Hc, (area_code_nonzero c (get_area_code_In _ _ Hc)), Hw.
    destruct (truthy district); reflexivity.
  - unfold create_plan_codes. rewrite Hc, Hs.
    destruct (truthy district && _); reflexivity.
Qed.

Lemma regions_without_districts_witness :
  get_area_code (PyStr "제주") = Some 39%Z
  /\ get_sigungu_code (PyStr "제주") (PyStr "제주시") = None
  /\ validate_location (PyStr "제주") (PyStr "제주시")
     = negb (truthy (PyStr "제주시"))
  /\ create_plan_codes (PyStr "제주") (PyStr "제주시") = Some (39%Z, None).
Proof.
  assert (H : get_area_code (PyStr "제주") = Some 39%Z) by reflexivity.
  assert (Hin : In 39%Z [1; 2; 3; 4; 5; 6; 7; 8; 39]%Z)
    by (simpl; auto 10).
  split; [exact H|].
  exact (regions_without_districts (PyStr "제주") (PyStr "제주시") 39 H Hin).
Defined.

(** X11: For every known region whose area code is none of 1..8 and 39
    the table of its districts exists, so
    that a district given as a non-empty string gets exactly the entry
    of its stripped name in that table, and [None] when there is none. *)
Theorem regions_with_districts (region : pyval) (c : Z) :
  get_area_code region = Some c ->
  ~ In c [1; 2; 3; 4; 5; 6; 7; 8; 39]%Z ->
  exists districts : list (string * Z),
    code_lookup c SIGUNGU_CODE_MAP = Some districts
    /\ forall ds : string,
         ds <> EmptyString ->
         get_sigungu_code region (PyStr ds)
         = str_lookup (py_strip ds) districts.
Proof.
  intros Hc Hnot.
  assert (Hw : without_districts c = false).
  { destruct (without_districts c) eqn:E; [|reflexivity].
    apply existsb_Zeqb in E. tauto. }
  pose proof (get_area_code_In _ _ Hc) as Hin. rewrite area_codes in Hin.
  assert (Hd : exists districts, code_lookup c SIGUNGU_CODE_MAP
                                 = Some districts).
  { simpl in Hin, Hnot.
    destruct Hin as [<-|[<-|[<-|[<-|[<-|[<-|[<-|[<-|[<-|[<-|[<-|[<-|[<-|
                    [<-|[<-|[<-|[<-|[]]]]]]]]]]]]]]]]]];
      try (exfalso; apply Hnot; auto 10; fail);
      eexists; reflexivity. }
  destruct Hd as [districts Hd]. exists districts. split; [exact Hd|].
  intros ds Hds. unfold get_sigungu_code.
  assert (Ht : truthy (PyStr ds) = true).
  { simpl. apply negb_true_iff. apply String.eqb_neq. exact Hds. }
  rewrite Ht, Hc, (area_code_nonzero c (get_area_code_In _ _ Hc)), Hw, Hd.
  reflexivity.
Qed.

Lemma regions_with_districts_witness :
  get_area_code (PyInt 31) = Some 31%Z
  /\ ~ In 31%Z [1; 2; 3; 4; 5; 6; 7; 8; 39]%Z
  /\ exists districts : list (string * Z),
       code_lookup 31%Z SIGUNGU_CODE_MAP = Some districts
       /\ forall ds : string,
            ds <> EmptyString ->
            get_sigungu_code (PyInt 31) (PyStr ds)
            = str_lookup (py_strip ds) districts.
Proof.
  assert (H : get_area_code (PyInt 31) = Some 31%Z) by reflexivity.
  assert (Hn : ~ In 31%Z [1; 2; 3; 4; 5; 6; 7; 8; 39]%Z)
    by (simpl; intuition discriminate).
  split; [exact H|]. split; [exact Hn|].
  exact (regions_with_districts (PyInt 31) 31 H Hn).
Defined.

(** X12: The district code [create_plan] works with is the one
    [get_sigungu_code] returns for the region and the district of the
    request; its own test of the district and of the table of the
    region changes nothing.  The plan ends with the error for the region
    exactly when [get_area_code] returns [None]. *)
Theorem create_plan_codes_are_the_mapper_codes (region district : pyval) :
  create_plan_codes region district
  = match get_area_code region with
    | None => None
    | Some c => Some (c, get_sigungu_code region district)
    end.
Proof.
  unfold create_plan_codes.
  destruct (get_area_code region) as [c|] eqn:Hc; [|reflexivity].
  destruct (truthy district) eqn:Ht; cbn [andb].
  - destruct (code_lookup c SIGUNGU_CODE_MAP) eqn:Hd; [reflexivity|].
    unfold get_sigungu_code. rewrite Ht, Hc, Hd. cbn [negb].
    destruct (Z.eqb c 0), (without_districts c); reflexivity.
  - unfold get_sigungu_code. rewrite Ht. reflexivity.
Qed.

(** X13: Two region names with the same area code are the same name once
    stripped. *)
Theorem area_names_are_unique (a b : string) (c : Z) :
  get_area_code (PyStr a) = Some c ->
  get_area_code (PyStr b) = Some c ->
  py_strip a = py_strip b.
Proof.
  unfold get_area_code. apply str_lookup_inj. apply area_codes_distinct.
Qed.

Lemma area_names_are_unique_witness :
  get_area_code (PyStr "부산 ") = Some 6%Z
  /\ get_area_code (PyStr " 부산") = Some 6%Z
  /\ py_strip "부산 " = py_strip " 부산".
Proof.
  assert (H1 : get_area_code (PyStr "부산 ") = Some 6%Z) by reflexivity.
  assert (H2 : get_area_code (PyStr " 부산") = Some 6%Z) by reflexivity.
  split; [exact H1|]. split; [exact H2|].
  exact (area_names_are_unique "부산 " " 부산" 6 H1 H2).
Defined.

(** X14: Within one region, two district names with the same district code
    are the same name once stripped. *)
Theorem district_names_are_unique (region : pyval) (d1 d2 : string)
    (s : Z) :
  get_sigungu_code region (PyStr d1) = Some s ->
  get_sigungu_code region (PyStr d2) = Some s ->
  py_strip d1 = py_strip d2.
Proof.
  intros H1 H2.
  destruct (get_sigungu_code_Some _ _ _ H1)
    as [c1 [t1 [ds1 [Hc1 [_ [Ht1 [E1 [_ Hs1]]]]]]]].
  destruct (get_sigungu_code_Some _ _ _ H2)
    as [c2 [t2 [ds2 [Hc2 [_ [Ht2 [E2 [_ Hs2]]]]]]]].
  injection E1 as <-. injection E2 as <-.
  rewrite Hc1 in Hc2. injection Hc2 as <-.
  rewrite Ht1 in Ht2. injection Ht2 as <-.
  apply (str_lookup_inj _ _ s t1); try assumption.
  apply (sigungu_codes_distinct c1). apply code_lookup_In. exact Ht1.
Qed.

Lemma district_names_are_unique_witness :
  get_sigungu_code (PyStr "경기") (PyStr "수원시") = Some 13%Z
  /\ get_sigungu_code (PyStr "경기") (PyStr " 수원시 ") = Some 13%Z
  /\ py_strip "수원시" = py_strip " 수원시 ".
Proof.
  assert (H1 : get_sigungu_code (PyStr "경기") (PyStr "수원시") = Some 13%Z)
    by reflexivity.
  assert (H2 : get_sigungu_code (PyStr "경기") (PyStr " 수원시 ")
               = Some 13%Z) by reflexivity.
  split; [exact H1|]. split; [exact H2|].
  exact (district_names_are_unique (PyStr "경기") "수원시" " 수원시 " 13
           H1 H2).
Defined.

(** ** The places handed to the optimizer *)

Lemma truthy_not_none (v : pyval) : truthy v = true -> is_none v = false.
Proof. destruct v; simpl; congruence. Qed.

Lemma with_name_named (x : found_place) : name (found (with_name x)) <> None.
Proof.
  unfold with_name. destruct (name (found x)) eqn:E; simpl; congruence.
Qed.

Lemma with_name_coords (x : found_place) :
  mapx (found (with_name x)) = mapx (found x)
  /\ mapy (found (with_name x)) = mapy (found x).
Proof.
  unfold with_name. destruct (name (found x)); simpl; auto.
Qed.

Lemma normalize_place_kept (g : geocoders) (region : pyval) (i : nat)
    (x y : found_place) (calls : list (nat * geocoder)) :
  normalize_place g region i x = (calls, Got (Some y)) ->
  name (found y) <> None
  /\ is_none (get (mapx (found y))) = false
  /\ is_none (get (mapy (found y))) = false.
Proof.
  unfold normalize_place.
  destruct (has_coords (found x)) eqn:Hc; cbn [negb].
  - intros [= _ <-]. destruct (with_name_coords x) as [-> ->].
    unfold has_coords in Hc. apply andb_true_iff in Hc as [Hx Hy].
    split; [apply with_name_named|].
    split; apply truthy_not_none; assumption.
  - destruct (get_coordinates g i _ region) as [calls' [c|e]];
      [|discriminate].
    destruct (is_none (coord_x c) || is_none (coord_y c)) eqn:En;
      [discriminate|].
    intros [= _ <-]. apply orb_false_iff in En as [Hx Hy].
    destruct (with_name_coords (with_coords c x)) as [-> ->].
    split; [apply with_name_named|]. simpl. auto.
Qed.

(** X15: When the loop of [create_plan] ends, every place of
    [normalized_places] has a name and has both coordinates present and
    different from [None]; the list is no longer than the list of the
    places found. *)
Theorem normalized_places_are_located (g : geocoders) (region : pyval)
    (all_places normalized_places : list found_place)
    (calls : list (nat * geocoder)) :
  normalize_places g region all_places = (calls, Got normalized_places) ->
  Forall (fun y => name (found y) <> None
                   /\ is_none (get (mapx (found y))) = false
                   /\ is_none (get (mapy (found y))) = false)
         normalized_places
  /\ length normalized_places <= length all_places.
Proof.
  unfold normalize_places. generalize 0 as i.
  revert normalized_places calls.
  induction all_places as [|x rest IH]; intros nps calls i; simpl.
  - intros [= _ <-]. split; [constructor | simpl; lia].
  - destruct (normalize_place g region i x) as [c1 [kept|e]] eqn:Hx;
      [|discriminate].
    destruct (normalize_from g region (S i) rest) as [c2 [nps'|e]] eqn:Hr;
      [|discriminate].
    destruct (IH _ _ _ Hr) as [Hall Hlen].
    intros [= _ <-]. destruct kept as [y|].
    + split; [|simpl; lia]. constructor; [|exact Hall].
      exact (normalize_place_kept _ _ _ _ _ _ Hx).
    + split; [exact Hall | lia].
Qed.

Lemma normalized_places_are_located_witness :
  normalize_places (google_finds (mkCoords (PyFloat 127) (PyFloat 37)))
    (PyStr "서울")
    [mkFound place_unlocated None; mkFound place_B None]
  = ([(0, Kakao); (0, Google)],
     Got [mkFound (mkPlace (Some (PyStr "E")) (Some (PyFloat 127))
                           (Some (PyFloat 37))) None;
          mkFound place_B None])
  /\ length [mkFound (mkPlace (Some (PyStr "E")) (Some (PyFloat 127))
                              (Some (PyFloat 37))) None;
             mkFound place_B None]
     <= length [mkFound place_unlocated None; mkFound place_B None].
Proof.
  assert (H : normalize_places
                (google_finds (mkCoords (PyFloat 127) (PyFloat 37)))
                (PyStr "서울")
                [mkFound place_unlocated None; mkFound place_B None]
              = ([(0, Kakao); (0, Google)],
                 Got [mkFound (mkPlace (Some (PyStr "E"))
                                       (Some (PyFloat 127))
                                       (Some (PyFloat 37))) None;
                      mkFound place_B None])) by reflexivity.
  split; [exact H|].
  exact (proj2 (normalized_places_are_located _ _ _ _ _ H)).
Defined.

Lemma normalize_from_located (g : geocoders) (region : pyval)
    (all_places : list found_place) :
  (forall x, In x all_places -> has_coords (found x) = true) ->
  forall i, normalize_from g region i all_places
            = ([], Got (map with_name all_places)).
Proof.
  induction all_places as [|x rest IH]; intros Hall i; simpl;
    [reflexivity|].
  unfold normalize_place. rewrite (Hall x) by (simpl; auto). cbn [negb].
  rewrite IH by (intros; apply Hall; simpl; auto). reflexivity.
Qed.

Lemma with_name_has_coords (x : found_place) :
  has_coords (found (with_name x)) = has_coords (found x).
Proof.
  unfold has_coords. destruct (with_name_coords x) as [-> ->]. reflexivity.
Qed.

(** X16: When every place found has coordinates, no geocoder is asked and no
    place is dropped: the places go to the optimizer in the order found,
    those without a name named by their title, all of them pass its
    filter, and for a list that is not empty the plan gets a route that
    is a permutation of all of them. *)
Theorem located_places_are_all_routed (g : geocoders)
    (get_travel_time : nat -> endpoint -> endpoint -> provider_outcome)
    (region : pyval) (all_places : list found_place) :
  (forall x, In x all_places -> has_coords (found x) = true) ->
  normalize_places g region all_places = ([], Got (map with_name all_places))
  /\ filter has_coords (map found (map with_name all_places))
     = map found (map with_name all_places)
  /\ (all_places <> [] ->
      exists (lookups : list task) (route : list place),
        plan_route g get_travel_time region all_places
        = Got (Some (lookups, Value route))
        /\ Permutation route (map found (map with_name all_places))).
Proof.
  intros Hall.
  pose proof (normalize_from_located g region all_places Hall 0) as Hn.
  assert (Hfilter : filter has_coords (map found (map with_name all_places))
                    = map found (map with_name all_places)).
  { apply filter_all_true. intros p Hp.
    apply in_map_iff in Hp as [y [<- Hy]].
    apply in_map_iff in Hy as [x [<- Hx]].
    rewrite with_name_has_coords. apply Hall. exact Hx. }
  split; [exact Hn|]. split; [exact Hfilter|].
  intros Hne. unfold plan_route, normalize_places. rewrite Hn. cbn [snd].
  destruct all_places as [|x rest]; [congruence|].
  cbn [map].
  destruct (optimize_returns_route get_travel_time
              (map found (map with_name (x :: rest))))
    as [route [Hrun [Hperm _]]].
  rewrite Hfilter in Hperm.
  exists (fst (_optimize_travel_path get_travel_time
                 (map found (map with_name (x :: rest))))), route.
  split.
  - cbn [map] in Hrun |- *. rewrite <- Hrun.
    destruct (_optimize_travel_path get_travel_time _). reflexivity.
  - destruct (length (map found (map with_name (x :: rest))) <=? 1);
      exact Hperm.
Qed.

Lemma located_places_are_all_routed_witness :
  (forall x, In x [mkFound place_A None; mkFound place_B None] ->
             has_coords (found x) = true)
  /\ normalize_places nothing_found (PyStr "서울")
       [mkFound place_A None; mkFound place_B None]
     = ([], Got (map with_name [mkFound place_A None; mkFound place_B None])).
Proof.
  assert (H : forall x, In x [mkFound place_A None; mkFound place_B None] ->
                        has_coords (found x) = true).
  { intros x [<-|[<-|[]]]; reflexivity. }
  split; [exact H|].
  exact (proj1 (located_places_are_all_routed nothing_found
                  (always (Duration 5)) (PyStr "서울")
                  [mkFound place_A None; mkFound place_B None] H)).
Defined.

(** X17: A place without coordinates whose name is [None], zero, empty or
    white space only is dropped without any geocoder being asked. *)
Theorem blank_names_are_dropped_unasked (g : geocoders) (region : pyval)
    (i : nat) (x : found_place) :
  has_coords (found x) = false ->
  (truthy (get_default (name (found x)) (PyStr "Unknown")) = false
   \/ exists s, name (found x) = Some (PyStr s) /\ isspace s = true) ->
  normalize_place g region i x = ([], Got None).
Proof.
  intros Hc Hblank. unfold normalize_place, get_coordinates.
  rewrite Hc. cbn [negb].
  destruct Hblank as [Hf|[s [Hs Hsp]]].
  - rewrite Hf. reflexivity.
  - rewrite Hs. cbn [get_default]. rewrite Hsp.
    destruct (truthy (PyStr s)); reflexivity.
Qed.

Lemma blank_names_are_dropped_unasked_witness :
  has_coords (found (mkFound (mkPlace (Some (PyStr "  ")) None None) None))
  = false
  /\ normalize_place (google_finds (mkCoords (PyFloat 127) (PyFloat 37)))
       (PyStr "서울") 0
       (mkFound (mkPlace (Some (PyStr "  ")) None None) None)
     = ([], Got None).
Proof.
  assert (Hc : has_coords
                 (found (mkFound (mkPlace (Some (PyStr "  ")) None None)
                                 None)) = false) by reflexivity.
  split; [exact Hc|].
  apply (blank_names_are_dropped_unasked
           (google_finds (mkCoords (PyFloat 127) (PyFloat 37)))
           (PyStr "서울") 0
           (mkFound (mkPlace (Some (PyStr "  ")) None None) None) Hc).
  right. exists "  "%string. split; reflexivity.
Defined.

(** X18: For one place the geocoders are asked in the order Kakao, Google,
    Naver and never twice; a place with coordinates asks none; Google is
    asked only after Kakao answered without two truthy coordinates, and
    Naver only after Google did so too. *)
Theorem geocoders_are_asked_in_order (g : geocoders) (region : pyval)
    (i : nat) (x : found_place) :
  let calls := fst (normalize_place g region i x) in
  (calls = [] \/ calls = [(i, Kakao)]
   \/ calls = [(i, Kakao); (i, Google)]
   \/ calls = [(i, Kakao); (i, Google); (i, Naver)])
  /\ (has_coords (found x) = true -> calls = [])
  /\ (In (i, Google) calls ->
      exists s c, kakao_coordinates g i s = Got c /\ both_truthy c = false)
  /\ (In (i, Naver) calls ->
      exists s c, google_coordinates g i s region = Got c
                  /\ both_truthy c = false).
Proof.
  cbv zeta. unfold normalize_place, get_coordinates.
  destruct (has_coords (found x)); cbn [negb].
  - cbn [fst]. split; [auto|]. split; [auto|]. split; intros [].
  - destruct (truthy (get_default (name (found x)) (PyStr "Unknown")));
      cbn [negb].
    2: { cbn [fst]. destruct (is_none _ || is_none _); cbn [fst];
           (split; [auto|]; split; [discriminate|]; split; intros []). }
    destruct (get_default (name (found x)) (PyStr "Unknown")) as [|z|q|s];
      try (cbn [fst]; split; [auto|]; split; [discriminate|];
           split; intros []; fail).
    destruct (isspace s).
    { destruct (is_none _ || is_none _); cbn [fst];
        (split; [auto|]; split; [discriminate|]; split; intros []). }
    destruct (kakao_coordinates g i s) as [kc|e] eqn:Hk.
    2: { cbn [fst]. split; [auto|]. split; [discriminate|].
         split; intros [H|[]]; discriminate. }
    destruct (both_truthy kc) eqn:Hkt.
    { destruct (is_none _ || is_none _); cbn [fst];
        (split; [auto|]; split; [discriminate|];
         split; intros [H|[]]; discriminate). }
    assert (HG : exists s0 c, kakao_coordinates g i s0 = Got c
                              /\ both_truthy c = false)
      by (exists s, kc; auto).
    destruct (google_coordinates g i s region) as [gc|e] eqn:Hg.
    2: { cbn [fst]. split; [auto|]. split; [discriminate|].
         split; [intros _; exact HG|].
         intros [H|[H|[]]]; discriminate. }
    destruct (both_truthy gc) eqn:Hgt.
    { destruct (is_none _ || is_none _); cbn [fst];
        (split; [auto|]; split; [discriminate|];
         split; [intros _; exact HG|];
         intros [H|[H|[]]]; discriminate). }
    assert (HN : exists s0 c, google_coordinates g i s0 region = Got c
                              /\ both_truthy c = false)
      by (exists s, gc; auto).
    destruct (naver_coordinates g i s region) as [nc|e].
    + destruct (is_none _ || is_none _); cbn [fst];
        (split; [auto 6|]; split; [discriminate|];
         split; intros _; assumption).
    + cbn [fst]. split; [auto 6|]. split; [discriminate|].
      split; intros _; assumption.
Qed.
